(** * Immutable report ledger: BlockchainService.ts

    A shallow embedding of [backend/src/blockchain/BlockchainService.ts]:
    the block and payload records, the canonical encoding that is hashed
    ([JSON.stringify] followed by SHA-256, rendered in hexadecimal), the
    proof-of-work loop, and the methods of the class [Blockchain] as
    functions on its one field [chain].

    Conventions of the embedding.
    - A JavaScript [number] that holds an index, a timestamp or a nonce is
      an integer of [Z]; it is printed in decimal, as [JSON.stringify]
      prints every integer below 10^21.  The loss of precision of
      [nonce++] and of [previousBlock.index + 1] above 2^53 is not
      modelled: a statement that depends on the value of such a sum is
      made for safe integers, where the sum of doubles is exact.
    - A JavaScript string is the sequence of the bytes of its UTF-8
      encoding, which is what CryptoJS feeds to SHA-256.
    - The array [chain] is a [list Block]; [chain[i]] is the lookup
      [chain !! i], which is [None] where JavaScript yields [undefined].
      The array is modelled by its contents: the statements are about
      calls of the methods, not about writes through the references that
      [getChain] and [loadChain] share with their callers, except for the
      overwrite of a payload, which is [tamperData].
    - [Date.now()] is an argument of [addBlock].
    - The [while] loop of [mineBlock] receives a bound on the number of
      times its condition is evaluated. *)

From Stdlib Require Import ZArith String Ascii Lia Bool.
From Stdlib Require Import DecimalString DecimalPos DecimalZ.
From stdpp Require Import base list.

Local Open Scope Z_scope.
#[local] Set Warnings "-register-all".

(** ** SHA-256 (FIPS 180-4), as computed by [CryptoJS.SHA256] *)

Module SHA256.

Definition mask32 : Z := 4294967295.

Definition add32 (x y : Z) : Z := Z.land (x + y) mask32.

Definition rotr (n x : Z) : Z :=
  Z.lor (Z.shiftr x n) (Z.land (Z.shiftl x (32 - n)) mask32).

Definition xor3 (x y z : Z) : Z := Z.lxor (Z.lxor x y) z.

Definition Ch (x y z : Z) : Z :=
  Z.lxor (Z.land x y) (Z.land (Z.lxor x mask32) z).

Definition Maj (x y z : Z) : Z :=
  xor3 (Z.land x y) (Z.land x z) (Z.land y z).

Definition bigSigma0 (x : Z) : Z := xor3 (rotr 2 x) (rotr 13 x) (rotr 22 x).
Definition bigSigma1 (x : Z) : Z := xor3 (rotr 6 x) (rotr 11 x) (rotr 25 x).
Definition smallSigma0 (x : Z) : Z := xor3 (rotr 7 x) (rotr 18 x) (Z.shiftr x 3).
Definition smallSigma1 (x : Z) : Z := xor3 (rotr 17 x) (rotr 19 x) (Z.shiftr x 10).

(** Round constants: the first 32 bits of the fractional parts of the
    cube roots of the first 64 primes. *)
Definition K : list Z :=
  [ 1116352408; 1899447441; 3049323471; 3921009573; 961987163; 1508970993;
    2453635748; 2870763221; 3624381080; 310598401; 607225278; 1426881987;
    1925078388; 2162078206; 2614888103; 3248222580; 3835390401; 4022224774;
    264347078; 604807628; 770255983; 1249150122; 1555081692; 1996064986;
    2554220882; 2821834349; 2952996808; 3210313671; 3336571891; 3584528711;
    113926993; 338241895; 666307205; 773529912; 1294757372; 1396182291;
    1695183700; 1986661051; 2177026350; 2456956037; 2730485921; 2820302411;
    3259730800; 3345764771; 3516065817; 3600352804; 4094571909; 275423344;
    430227734; 506948616; 659060556; 883997877; 958139571; 1322822218;
    1537002063; 1747873779; 1955562222; 2024104815; 2227730452; 2361852424;
    2428436474; 2756734187; 3204031479; 3329325298 ].

(** The working variables a..h, also the intermediate hash value. *)
Record regs := Regs {
  ra : Z; rb : Z; rc : Z; rd : Z; re : Z; rf : Z; rg : Z; rh : Z
}.

Definition initial : regs :=
  Regs 1779033703 3144134277 1013904242 2773480762
       1359893119 2600822924 528734635 1541459225.

Definition bytes_of_string (s : string) : list Z :=
  map (fun c => Z.of_N (N_of_ascii c)) (list_ascii_of_string s).

Definition be64 (n : Z) : list Z :=
  map (fun k => Z.land (Z.shiftr n (8 * k)) 255) [7; 6; 5; 4; 3; 2; 1; 0].

(** Padding: the byte 0x80, zero bytes up to 56 modulo 64, then the
    length in bits on 64 bits. *)
Definition pad (msg : list Z) : list Z :=
  let len := Z.of_nat (length msg) in
  msg ++ 128 :: repeat 0 (Z.to_nat ((55 - len) mod 64)) ++ be64 (8 * len).

Fixpoint words (bs : list Z) : list Z :=
  match bs with
  | b0 :: b1 :: b2 :: b3 :: rest =>
      Z.lor (Z.shiftl b0 24) (Z.lor (Z.shiftl b1 16) (Z.lor (Z.shiftl b2 8) b3))
      :: words rest
  | _ => []
  end.

(** [win] holds the sixteen words W(t-16) .. W(t-1). *)
Fixpoint schedule (n : nat) (win : list Z) : list Z :=
  match n with
  | O => []
  | S n' =>
      let w := add32 (add32 (add32 (smallSigma1 (nth 14 win 0)) (nth 9 win 0))
                            (smallSigma0 (nth 1 win 0)))
                     (nth 0 win 0) in
      w :: schedule n' (tail win ++ [w])
  end.

Definition round (r : regs) (kw : Z * Z) : regs :=
  let t1 := add32 (add32 (add32 (add32 (rh r) (bigSigma1 (re r)))
                                (Ch (re r) (rf r) (rg r)))
                         (fst kw))
                  (snd kw) in
  let t2 := add32 (bigSigma0 (ra r)) (Maj (ra r) (rb r) (rc r)) in
  Regs (add32 t1 t2) (ra r) (rb r) (rc r) (add32 (rd r) t1) (re r) (rf r) (rg r).

Definition compress (h : regs) (block : list Z) : regs :=
  let r := fold_left round (combine K (block ++ schedule 48 block)) h in
  Regs (add32 (ra h) (ra r)) (add32 (rb h) (rb r))
       (add32 (rc h) (rc r)) (add32 (rd h) (rd r))
       (add32 (re h) (re r)) (add32 (rf h) (rf r))
       (add32 (rg h) (rg r)) (add32 (rh h) (rh r)).

Fixpoint blocks (n : nat) (h : regs) (ws : list Z) : regs :=
  match n with
  | O => h
  | S n' => blocks n' (compress h (firstn 16 ws)) (skipn 16 ws)
  end.

Definition hexdigit (d : Z) : ascii :=
  ascii_of_N (Z.to_N (if d <? 10 then 48 + d else 87 + d)).

Definition hex32 (w : Z) (k : string) : string :=
  fold_right (fun i acc => String (hexdigit (Z.land (Z.shiftr w (4 * i)) 15)) acc)
             k [7; 6; 5; 4; 3; 2; 1; 0].

Definition hex (r : regs) : string :=
  hex32 (ra r) (hex32 (rb r) (hex32 (rc r) (hex32 (rd r)
  (hex32 (re r) (hex32 (rf r) (hex32 (rg r) (hex32 (rh r) EmptyString))))))).

(** [CryptoJS.SHA256(s).toString(CryptoJS.enc.Hex)] *)
Definition digest (s : string) : string :=
  let ws := words (pad (bytes_of_string s)) in
  hex (blocks (Nat.div (length ws) 16) initial ws).

End SHA256.

(** ** [JSON.stringify] on the values the ledger hashes *)

Module JSON.

(** The fragment of JavaScript values that occurs in a block.  A
    property whose value is [undefined] is [None]. *)
Inductive value : Type :=
| Number (n : Z)
| Str (s : string)
| Array (elems : list value)
| Object (props : list (string * option value)).

Definition dquote : ascii := "034"%char.
Definition backslash : ascii := "092"%char.

Definition hexdigit (d : N) : ascii :=
  ascii_of_N (if (d <? 10)%N then 48 + d else 87 + d)%N.

(** QuoteJSONString, one code unit at a time. *)
Definition escape_char (c : ascii) (k : string) : string :=
  let n := N_of_ascii c in
  if (n =? 34)%N then String backslash (String dquote k)
  else if (n =? 92)%N then String backslash (String backslash k)
  else if (n =? 8)%N then String backslash (String "b" k)
  else if (n =? 9)%N then String backslash (String "t" k)
  else if (n =? 10)%N then String backslash (String "n" k)
  else if (n =? 12)%N then String backslash (String "f" k)
  else if (n =? 13)%N then String backslash (String "r" k)
  else if (n <? 32)%N then
    String backslash (String "u" (String "0" (String "0"
      (String (hexdigit (n / 16)) (String (hexdigit (n mod 16)) k)))))
  else String c k.

Fixpoint escape (s : string) : string :=
  match s with
  | EmptyString => EmptyString
  | String c rest => escape_char c (escape rest)
  end.

Definition quote (s : string) : string :=
  String dquote (escape s ++ String dquote EmptyString).

Definition number_to_string (n : Z) : string :=
  NilZero.string_of_int (Z.to_int n).

Fixpoint commas (parts : list string) : string :=
  match parts with
  | [] => EmptyString
  | [p] => p
  | p :: rest => p ++ "," ++ commas rest
  end.

Fixpoint stringify (v : value) : string :=
  match v with
  | Number n => number_to_string n
  | Str s => quote s
  | Array elems => "[" ++ commas (map stringify elems) ++ "]"
  | Object props =>
      let property (p : string * option value) : list string :=
        match p with
        | (k, Some x) => [quote k ++ ":" ++ stringify x]
        | (_, None) => []
        end in
      "{" ++ commas (concat (map property props)) ++ "}"
  end%string.

End JSON.

(** ** Types *)

Inductive Identity : Type := name | anonymous.

Inductive Status : Type := PENDING | UNDER_REVIEW | RESOLVED | DISMISSED.

Record Location : Type := mkLocation {
  area : string;
  address : string;
  nearestStation : string
}.

Module BlockData.
Record t : Type := mk {
  reportId : string;
  category : string;
  urgency : string;
  location : Location;
  descriptionHash : string;
  evidenceHashes : list string;
  identity : Identity;
  citizenId : option string;
  timestamp : Z;
  authorityRouted : list string;
  status : Status
}.
End BlockData.
Abbreviation BlockData := BlockData.t.

Record Block : Type := mkBlock {
  index : Z;
  timestamp : Z;
  data : BlockData;
  previousHash : string;
  hash : string;
  nonce : Z
}.

(** ** Constants *)

Definition MINING_DIFFICULTY : nat := 2.

(** [String.prototype.repeat] *)
Fixpoint repeat_string (s : string) (n : nat) : string :=
  match n with
  | O => EmptyString
  | S n' => (s ++ repeat_string s n')%string
  end.

Definition DIFFICULTY_PREFIX : string := repeat_string "0" MINING_DIFFICULTY.

(** [String.prototype.startsWith] *)
Definition startsWith (s p : string) : bool := String.prefix p s.

(** ** The values handed to [JSON.stringify]

    Properties are listed in the order in which the object literals of the
    source create them: the payload in the order of [genesisData] and of
    the route that builds [blockData], the hashed record in the order of
    [{ index, timestamp, data, previousHash, nonce }]. *)

Definition Identity_value (i : Identity) : JSON.value :=
  JSON.Str match i with name => "name" | anonymous => "anonymous" end.

Definition Status_value (s : Status) : JSON.value :=
  JSON.Str match s with
           | PENDING => "PENDING"
           | UNDER_REVIEW => "UNDER_REVIEW"
           | RESOLVED => "RESOLVED"
           | DISMISSED => "DISMISSED"
           end.

Definition Location_value (l : Location) : JSON.value :=
  JSON.Object
    [ ("area", Some (JSON.Str (area l)));
      ("address", Some (JSON.Str (address l)));
      ("nearestStation", Some (JSON.Str (nearestStation l))) ]%string.

Definition BlockData_value (d : BlockData) : JSON.value :=
  JSON.Object
    [ ("reportId", Some (JSON.Str (BlockData.reportId d)));
      ("category", Some (JSON.Str (BlockData.category d)));
      ("urgency", Some (JSON.Str (BlockData.urgency d)));
      ("location", Some (Location_value (BlockData.location d)));
      ("descriptionHash", Some (JSON.Str (BlockData.descriptionHash d)));
      ("evidenceHashes", Some (JSON.Array (map JSON.Str (BlockData.evidenceHashes d))));
      ("identity", Some (Identity_value (BlockData.identity d)));
      ("citizenId", JSON.Str <$> BlockData.citizenId d);
      ("timestamp", Some (JSON.Number (BlockData.timestamp d)));
      ("authorityRouted", Some (JSON.Array (map JSON.Str (BlockData.authorityRouted d))));
      ("status", Some (Status_value (BlockData.status d))) ]%string.

(** ** The class [Blockchain] *)

Record Blockchain : Type := mkBlockchain { chain : list Block }.

(** What a call produces: a value, an uncaught [TypeError], or nothing
    within the bound given to the mining loop. *)
Inductive outcome (A : Type) : Type :=
| Returns (a : A)
| Throws_TypeError
| OutOfFuel.
Arguments Returns {A} a.
Arguments Throws_TypeError {A}.
Arguments OutOfFuel {A}.

(** [computeHash] *)
Definition computeHash (index timestamp : Z) (data : BlockData)
    (previousHash : string) (nonce : Z) : string :=
  let content :=
    JSON.stringify
      (JSON.Object
         [ ("index", Some (JSON.Number index));
           ("timestamp", Some (JSON.Number timestamp));
           ("data", Some (BlockData_value data));
           ("previousHash", Some (JSON.Str previousHash));
           ("nonce", Some (JSON.Number nonce)) ]%string) in
  SHA256.digest content.

(** [new Date('2024-01-01').getTime()]: midnight UTC, in milliseconds. *)
Definition genesisTime : Z := 1704067200000.

(** [createGenesisBlock] *)
Definition createGenesisBlock : Block :=
  let genesisData :=
    BlockData.mk "GENESIS" "SYSTEM" "NONE"
      (mkLocation "India" "Origin" "N/A")
      "0000000000000000" [] anonymous None genesisTime [] RESOLVED in
  mkBlock 0 genesisTime genesisData "0000000000000000"
    (computeHash 0 genesisTime genesisData "0000000000000000" 0) 0.

(** [constructor] *)
Definition new_Blockchain : Blockchain :=
  mkBlockchain [createGenesisBlock].

(** The loop of [mineBlock], entered with the current [nonce] and [hash];
    [fuel] bounds the number of evaluations of the loop condition. *)
Fixpoint mineLoop (fuel : nat) (index timestamp : Z) (data : BlockData)
    (previousHash : string) (nonce : Z) (hash : string) : option (string * Z) :=
  match fuel with
  | O => None
  | S fuel' =>
      if negb (startsWith hash DIFFICULTY_PREFIX) then
        let nonce := nonce + 1 in
        let hash := computeHash index timestamp data previousHash nonce in
        mineLoop fuel' index timestamp data previousHash nonce hash
      else Some (hash, nonce)
  end.

(** [mineBlock] *)
Definition mineBlock (fuel : nat) (index timestamp : Z) (data : BlockData)
    (previousHash : string) : option (string * Z) :=
  mineLoop fuel index timestamp data previousHash 0 EmptyString.

(** [getLatestBlock]: [this.chain[this.chain.length - 1]]; on the empty
    array the index is -1 and the result [undefined]. *)
Definition getLatestBlock (this : Blockchain) : option Block :=
  match chain this with
  | [] => None
  | _ => chain this !! (length (chain this) - 1)%nat
  end.

(** [addBlock]; [now] is the value of [Date.now()].  Reading [.index] of
    [undefined] throws before anything is pushed. *)
Definition addBlock (fuel : nat) (now : Z) (data : BlockData)
    (this : Blockchain) : outcome (Block * Blockchain) :=
  match getLatestBlock this with
  | None => Throws_TypeError
  | Some previousBlock =>
      let index := index previousBlock + 1 in
      let timestamp := now in
      let previousHash := hash previousBlock in
      match mineBlock fuel index timestamp data previousHash with
      | None => OutOfFuel
      | Some (hash, nonce) =>
          let newBlock := mkBlock index timestamp data previousHash hash nonce in
          Returns (newBlock, mkBlockchain (chain this ++ [newBlock]))
      end
  end.

(** [getChain] *)
Definition getChain (this : Blockchain) : list Block := chain this.

(** The [for] loop of [isChainValid], at counter [i] with [todo]
    iterations left.  Inside the loop [i] and [i - 1] are below the length,
    so the last branch, where an element is [undefined], is never taken. *)
Fixpoint isChainValid_from (c : list Block) (i todo : nat) : bool :=
  match todo with
  | O => true
  | S todo' =>
      match c !! i, c !! (i - 1)%nat with
      | Some current, Some previous =>
          let recomputedHash :=
            computeHash (index current) (timestamp current) (data current)
                        (previousHash current) (nonce current) in
          if negb (String.eqb (hash current) recomputedHash) then false
          else if negb (String.eqb (previousHash current) (hash previous)) then false
          else isChainValid_from c (S i) todo'
      | _, _ => false
      end
  end.

(** [isChainValid]: [i] runs from 1 while [i < this.chain.length]. *)
Definition isChainValid (this : Blockchain) : bool :=
  isChainValid_from (chain this) 1 (length (chain this) - 1).

(** [findBlockByReportId] *)
Definition findBlockByReportId (reportId : string) (this : Blockchain) : option Block :=
  find (fun b => String.eqb (BlockData.reportId (data b)) reportId) (chain this).

(** [getLength] *)
Definition getLength (this : Blockchain) : nat := length (chain this).

(** [loadChain] *)
Definition loadChain (candidate : list Block) (this : Blockchain) : bool * Blockchain :=
  let tempChain := chain this in
  let this := mkBlockchain candidate in
  if negb (isChainValid this) then (false, mkBlockchain tempChain)
  else (true, this).

(** [hashData] *)
Definition hashData (s : string) : string := SHA256.digest s.

(** ** Concrete ledgers used as test data

    The payload of the end-to-end scenario, sealed on a fresh ledger at a
    clock value for which the search stops at nonce 2. *)

Definition payloadR1 : BlockData :=
  BlockData.mk "R1" "Infrastructure" "Medium"
    (mkLocation "Kolkata" "Park Street" "Park Street Police Station")
    (hashData "broken streetlight") [] anonymous None 1760000000000
    ["Municipal Corporation"%string] PENDING.

Definition blockR1 : Block :=
  mkBlock 1 1760000000116 payloadR1 (hash createGenesisBlock)
    "002359cb5e578df613bf6e7ab19d261b856cc980b9a4a9da31a00c58002d5872" 2.

Definition ledgerR1 : Blockchain := mkBlockchain [createGenesisBlock; blockR1].

(** ** Auxiliary definitions for the statements *)

(** The difficulty predicate on the digest obtained with [nonce]. *)
Definition qualifies (index timestamp : Z) (data : BlockData)
    (previousHash : string) (nonce : Z) : Prop :=
  startsWith (computeHash index timestamp data previousHash nonce)
             DIFFICULTY_PREFIX = true.

(** The two checks the loop of [isChainValid] makes on [current]. *)
Definition checks (previous current : Block) : bool :=
  String.eqb (hash current)
    (computeHash (index current) (timestamp current) (data current)
                 (previousHash current) (nonce current))
  && String.eqb (previousHash current) (hash previous).

(** Every block after [previous] passes [checks] against its predecessor. *)
Fixpoint linked (previous : Block) (rest : list Block) : bool :=
  match rest with
  | [] => true
  | current :: rest' => checks previous current && linked current rest'
  end.

(** A block with its [data] overwritten, every other field kept. *)
Definition setData (d : BlockData) (b : Block) : Block :=
  mkBlock (index b) (timestamp b) d (previousHash b) (hash b) (nonce b).

(** [this.chain[i].data = d], performed from outside the class. *)
Definition tamperData (i : nat) (d : BlockData) (this : Blockchain) : Blockchain :=
  mkBlockchain (alter (setData d) i (chain this)).

(** Ledgers obtained from the constructor by calls of [addBlock]. *)
Inductive built : Blockchain -> Prop :=
| built_new : built new_Blockchain
| built_addBlock fuel now d this b this' :
    built this ->
    addBlock fuel now d this = Returns (b, this') ->
    built this'.

(** The payload the route [POST /api/reports] hands to [addBlock]:
    [reportId] is the fresh UUID, [now] the value of [Date.now()], the
    other arguments the validated fields of the request body. *)
Definition post_report_blockData (reportId category urgency description : string)
    (identity : Identity) (citizenId : option string) (location : Location)
    (evidence authorities : list string) (now : Z) : BlockData :=
  let descriptionHash := hashData description in
  let evidenceHashes := map hashData evidence in
  BlockData.mk reportId category urgency location descriptionHash evidenceHashes
    identity
    (match identity with name => citizenId | anonymous => None end)
    now authorities PENDING.

(** A sequence of calls on the public methods that change the ledger. *)
Inductive call : Type :=
| call_addBlock (fuel : nat) (now : Z) (d : BlockData)
| call_loadChain (candidate : list Block).

Definition perform (this : Blockchain) (c : call) : Blockchain :=
  match c with
  | call_addBlock fuel now d =>
      match addBlock fuel now d this with
      | Returns (_, this') => this'
      | _ => this
      end
  | call_loadChain candidate => snd (loadChain candidate this)
  end.

Definition nonempty_candidate (c : call) : Prop :=
  match c with
  | call_addBlock _ _ _ => True
  | call_loadChain candidate => candidate <> []
  end.

(** More test data. *)

(** The genesis payload with its [reportId] overwritten. *)
Definition forgedGenesisData : BlockData :=
  BlockData.mk "FORGED" "SYSTEM" "NONE"
    (mkLocation "India" "Origin" "N/A")
    "0000000000000000" [] anonymous None genesisTime [] RESOLVED.

(** [blockR1] with the first two characters of its [hash] overwritten. *)
Definition corruptedR1 : Block :=
  mkBlock 1 1760000000116 payloadR1 (hash createGenesisBlock)
    "ff2359cb5e578df613bf6e7ab19d261b856cc980b9a4a9da31a00c58002d5872" 2.



(** An anonymous payload that carries a [citizenId], and the block
    [addBlock] seals from it on a fresh ledger at clock value
    1760000000088. *)
Definition payloadAnonymousWithId : BlockData :=
  BlockData.mk "R1" "Infrastructure" "Medium"
    (mkLocation "Kolkata" "Park Street" "Park Street Police Station")
    (hashData "broken streetlight") [] anonymous (Some "CIT-42"%string)
    1760000000000 ["Municipal Corporation"%string] PENDING.

Definition blockAnonymousWithId : Block :=
  mkBlock 1 1760000000088 payloadAnonymousWithId (hash createGenesisBlock)
    "0002e11b7121e23b90ed0e45e002615713404aac17b5b80f01979a46a7b29c0e" 1.

(** ** Further definitions: other writes from outside, forged blocks,
    and the callers of the ledger *)

(** A block with its [hash] overwritten, every other field kept. *)
Definition setHash (h : string) (b : Block) : Block :=
  mkBlock (index b) (timestamp b) (data b) (previousHash b) h (nonce b).

(** [this.chain[i].hash = h], performed from outside the class. *)
Definition tamperHash (i : nat) (h : string) (this : Blockchain) : Blockchain :=
  mkBlockchain (alter (setHash h) i (chain this)).

(** A block with its [previousHash] overwritten, every other field kept. *)
Definition setPreviousHash (p : string) (b : Block) : Block :=
  mkBlock (index b) (timestamp b) (data b) p (hash b) (nonce b).

(** [this.chain[i].previousHash = p], performed from outside the class. *)
Definition tamperPreviousHash (i : nat) (p : string) (this : Blockchain) : Blockchain :=
  mkBlockchain (alter (setPreviousHash p) i (chain this)).

(** A block written by hand: its [hash] is [computeHash] of its other
    fields, at a nonce chosen freely, without any search. *)
Definition handSealed (index timestamp : Z) (data : BlockData)
    (previousHash : string) (nonce : Z) : Block :=
  mkBlock index timestamp data previousHash
    (computeHash index timestamp data previousHash nonce) nonce.

(** The string [computeHash] hashes. *)
Definition content (index timestamp : Z) (data : BlockData)
    (previousHash : string) (nonce : Z) : string :=
  JSON.stringify
    (JSON.Object
       [ ("index", Some (JSON.Number index));
         ("timestamp", Some (JSON.Number timestamp));
         ("data", Some (BlockData_value data));
         ("previousHash", Some (JSON.Str previousHash));
         ("nonce", Some (JSON.Number nonce)) ]%string).

(** Step 2 of [start] in the server entry point: what is logged, and the
    ledger afterwards.  [savedChain] is the result of
    [loadBlockchainState()], [None] for [null]. *)
Inductive startup_log : Type :=
| log_restored (blocks : nat)
| log_restore_failed
| log_initialized_with_genesis.

Definition restore (savedChain : option (list Block)) (blockchain : Blockchain)
    : startup_log * Blockchain :=
  match savedChain with
  | Some saved =>
      if (1 <? length saved)%nat then
        let (loaded, blockchain) := loadChain saved blockchain in
        if loaded then (log_restored (length saved), blockchain)
        else (log_restore_failed, blockchain)
      else (log_initialized_with_genesis, blockchain)
  | None => (log_initialized_with_genesis, blockchain)
  end.

(** Lowercase hexadecimal digits. *)
Definition is_hex_char (c : ascii) : bool :=
  let n := N_of_ascii c in
  ((48 <=? n) && (n <=? 57) || (97 <=? n) && (n <=? 102))%N.

Fixpoint all_chars (p : ascii -> bool) (s : string) : bool :=
  match s with
  | EmptyString => true
  | String c rest => p c && all_chars p rest
  end.

(** A second report, sealed after [blockR1] at clock value 1760000000198. *)
Definition payloadR2 : BlockData :=
  BlockData.mk "R2" "Infrastructure" "Medium"
    (mkLocation "Kolkata" "Park Street" "Park Street Police Station")
    (hashData "broken streetlight") [] name (Some "CIT-7"%string)
    1760000000000 ["Municipal Corporation"%string] PENDING.

Definition blockR2 : Block :=
  mkBlock 2 1760000000198 payloadR2 (hash blockR1)
    "00b567f535407af5937047f9415605779b4e0141d33a95c5fb10b5f6592953bb" 2.

Definition ledgerR2 : Blockchain :=
  mkBlockchain [createGenesisBlock; blockR1; blockR2].

(** [this.chain.splice(i, 1)], performed from outside the class. *)
Definition deleteBlock (i : nat) (this : Blockchain) : Blockchain :=
  mkBlockchain (delete i (chain this)).

(** The blocks at [i] and [i + 1] exchanged, from outside the class. *)
Definition swapAdjacent (i : nat) (this : Blockchain) : Blockchain :=
  match chain this !! i, chain this !! S i with
  | Some x, Some y => mkBlockchain (<[S i := x]> (<[i := y]> (chain this)))
  | _, _ => this
  end.

(** ** Safe integers

    [Number.MAX_SAFE_INTEGER], 2^53 - 1.  On the integers from
    [- MAX_SAFE_INTEGER] to [MAX_SAFE_INTEGER] a double holds the value
    exactly, adding 1 is exact, and [JSON.stringify] prints plain decimal
    digits. *)
Definition MAX_SAFE_INTEGER : Z := 9007199254740991.

(** [Number.isSafeInteger] on an integer. *)
Definition is_safe_integer (x : Z) : bool :=
  (- MAX_SAFE_INTEGER <=? x) && (x <=? MAX_SAFE_INTEGER).

(** The double nearest to the integer [x], ties to the even significand
    (53 bits); for integers below 2^1024 in absolute value. *)
Definition round_to_double (x : Z) : Z :=
  let a := Z.abs x in
  if a <? 2 ^ 53 then x
  else
    let e := Z.log2 a - 52 in
    let q := Z.shiftr a e in
    let r := a - Z.shiftl q e in
    let half := Z.shiftl 1 (e - 1) in
    let q' := if (half <? r) || ((r =? half) && Z.odd q) then q + 1 else q in
    Z.sgn x * Z.shiftl q' e.

(** [x + y] on two doubles that hold integers: the exact sum, rounded. *)
Definition js_add (x y : Z) : Z := round_to_double (x + y).

(** ** Decoders, used to show that the encoding is unambiguous *)

(** The characters [JSON.number_to_string] writes. *)
Definition is_number_char (c : ascii) : bool :=
  let n := N_of_ascii c in
  ((48 <=? n) && (n <=? 57) || (n =? 45))%N.

(** The longest prefix of [s] made of characters that satisfy [p], and
    what follows it. *)
Fixpoint span (p : ascii -> bool) (s : string) : string * string :=
  match s with
  | EmptyString => (EmptyString, EmptyString)
  | String c rest =>
      if p c then (String c (fst (span p rest)), snd (span p rest))
      else (EmptyString, s)
  end.

Definition hexval (c : ascii) : N :=
  let n := N_of_ascii c in
  (if n <? 58 then n - 48 else n - 87)%N.

(** The character a two-character escape stands for. *)
Definition unescaped (e : ascii) : ascii :=
  if Ascii.eqb e "b" then "008"%char
  else if Ascii.eqb e "t" then "009"%char
  else if Ascii.eqb e "n" then "010"%char
  else if Ascii.eqb e "f" then "012"%char
  else if Ascii.eqb e "r" then "013"%char
  else e.

(** Reads the body of a JSON string literal up to its closing quote;
    returns the string it denotes and what follows the literal. *)
Fixpoint unquote_body (s : string) : option (string * string) :=
  match s with
  | EmptyString => None
  | String c rest =>
      if Ascii.eqb c JSON.dquote then Some (EmptyString, rest)
      else if Ascii.eqb c JSON.backslash then
        match rest with
        | String e rest' =>
            if Ascii.eqb e "u" then
              match rest' with
              | String _ (String _ (String h (String l rest''))) =>
                  match unquote_body rest'' with
                  | Some (body, k) =>
                      Some (String (ascii_of_N (16 * hexval h + hexval l)) body, k)
                  | None => None
                  end
              | _ => None
              end
            else
              match unquote_body rest' with
              | Some (body, k) => Some (String (unescaped e) body, k)
              | None => None
              end
        | EmptyString => None
        end
      else
        match unquote_body rest with
        | Some (body, k) => Some (String c body, k)
        | None => None
        end
  end.

Definition unquote (s : string) : option (string * string) :=
  match s with
  | String c rest => if Ascii.eqb c JSON.dquote then unquote_body rest else None
  | EmptyString => None
  end.




(** The block fields that are numbers are safe integers. *)
Definition safe_numbers (b : Block) : bool :=
  is_safe_integer (index b) && is_safe_integer (timestamp b)
  && is_safe_integer (nonce b)
  && is_safe_integer (BlockData.timestamp (data b)).


(** ** JavaScript strings as UTF-16 code units *)

(** D800..DBFF *)
Definition is_high_surrogate (u : Z) : bool := (55296 <=? u) && (u <=? 56319).

(** DC00..DFFF *)
Definition is_low_surrogate (u : Z) : bool := (56320 <=? u) && (u <=? 57343).

Definition byte_char (n : Z) : ascii := ascii_of_N (Z.to_N n).

(** The UTF-8 bytes of one code point, in front of [k]. *)
Definition utf8_of_code_point (cp : Z) (k : string) : string :=
  if cp <? 128 then String (byte_char cp) k
  else if cp <? 2048 then
    String (byte_char (192 + cp / 64))
      (String (byte_char (128 + cp mod 64)) k)
  else if cp <? 65536 then
    String (byte_char (224 + cp / 4096))
      (String (byte_char (128 + (cp / 64) mod 64))
         (String (byte_char (128 + cp mod 64)) k))
  else
    String (byte_char (240 + cp / 262144))
      (String (byte_char (128 + (cp / 4096) mod 64))
         (String (byte_char (128 + (cp / 64) mod 64))
            (String (byte_char (128 + cp mod 64)) k))).

(** [CryptoJS.enc.Utf8.parse], that is [unescape(encodeURIComponent(s))]:
    the UTF-8 bytes of a string given by its UTF-16 code units, or [None]
    where [encodeURIComponent] throws [URIError], on a surrogate that is
    not half of a pair. *)
Fixpoint Utf8_parse (s : list Z) : option string :=
  match s with
  | [] => Some EmptyString
  | u :: rest =>
      if is_high_surrogate u then
        match rest with
        | l :: rest' =>
            if is_low_surrogate l then
              match Utf8_parse rest' with
              | Some k =>
                  Some (utf8_of_code_point
                          (65536 + (u - 55296) * 1024 + (l - 56320)) k)
              | None => None
              end
            else None
        | [] => None
        end
      else if is_low_surrogate u then None
      else
        match Utf8_parse rest with
        | Some k => Some (utf8_of_code_point u k)
        | None => None
        end
  end.

(** [hashData] on a JavaScript string: [None] for the thrown [URIError]. *)
Definition hashData_utf16 (s : list Z) : option string :=
  match Utf8_parse s with
  | Some bytes => Some (hashData bytes)
  | None => None
  end.


(** Well-formed UTF-16: every surrogate is half of a pair, a high one
    followed by a low one. *)
Inductive well_formed_utf16 : list Z -> Prop :=
| wf_empty : well_formed_utf16 []
| wf_unit u s :
    is_high_surrogate u = false -> is_low_surrogate u = false ->
    well_formed_utf16 s -> well_formed_utf16 (u :: s)
| wf_pair h l s :
    is_high_surrogate h = true -> is_low_surrogate l = true ->
    well_formed_utf16 s -> well_formed_utf16 (h :: l :: s).

(** ** Sanity checks of the encoding *)

Example genesis_hash :
  hash createGenesisBlock =
  "d721bb12b32d6444bdfa134d49aa67865fd2969812c48032e8dee1f2db0077f9"%string.
Proof. vm_compute. reflexivity. Qed.

Example sha256_abc :
  SHA256.digest "abc" =
  "ba7816bf8f01cfea414140de5dae2223b00361a396177a9cb410ff61f20015ad"%string.
Proof. vm_compute. reflexivity. Qed.

Example sha256_empty :
  SHA256.digest "" =
  "e3b0c44298fc1c149afbf4c8996fb92427ae41e4649b934ca495991b7852b855"%string.
Proof. vm_compute. reflexivity. Qed.

Example sha256_two_blocks :
  SHA256.digest "abcdbcdecdefdefgefghfghighijhijkijkljklmklmnlmnomnopnopq" =
  "248d6a61d20638b8e5c026930c3e6039a33ce45964ff2167f6ecedd419db06c1"%string.
Proof. vm_compute. reflexivity. Qed.

(** ** Lemmas on the validation loop *)

Lemma isChainValid_from_linked (rest pre : list Block) (previous : Block) :
  isChainValid_from (pre ++ previous :: rest) (S (length pre)) (length rest)
  = linked previous rest.
Proof.
  revert pre previous.
  induction rest as [|current rest IH]; intros pre previous; [reflexivity|].
  cbn [length isChainValid_from linked].
  replace (S (length pre) - 1)%nat with (length pre) by lia.
  rewrite (lookup_app_r pre) by lia.
  replace (S (length pre) - length pre)%nat with 1%nat by lia.
  rewrite list_lookup_middle by reflexivity.
  cbn [lookup list_lookup].
  unfold checks.
  destruct (String.eqb (hash current) _); cbn [negb andb]; [|reflexivity].
  destruct (String.eqb (previousHash current) _); cbn [negb andb]; [|reflexivity].
  specialize (IH (pre ++ [previous]) current).
  rewrite <- app_assoc in IH. cbn [app] in IH.
  rewrite length_app in IH. cbn [length] in IH.
  replace (length pre + 1)%nat with (S (length pre)) in IH by lia.
  exact IH.
Qed.

Lemma isChainValid_cons (first : Block) (rest : list Block) :
  isChainValid (mkBlockchain (first :: rest)) = linked first rest.
Proof.
  unfold isChainValid. cbn [chain length].
  replace (S (length rest) - 1)%nat with (length rest) by lia.
  exact (isChainValid_from_linked rest [] first).
Qed.

Lemma isChainValid_nil : isChainValid (mkBlockchain []) = true.
Proof. reflexivity. Qed.

Lemma loadChain_valid (candidate : list Block) (this : Blockchain) :
  isChainValid (mkBlockchain candidate) = true ->
  loadChain candidate this = (true, mkBlockchain candidate).
Proof. intros H. unfold loadChain. rewrite H. reflexivity. Qed.

Lemma loadChain_invalid (candidate : list Block) (this : Blockchain) :
  isChainValid (mkBlockchain candidate) = false ->
  loadChain candidate this = (false, this).
Proof. intros H. unfold loadChain. rewrite H. destruct this. reflexivity. Qed.

Lemma ledgerR1_valid : isChainValid ledgerR1 = true.
Proof. vm_compute. reflexivity. Qed.

(** ** Lemmas on the mining loop *)

Section Mining.

Variables (index timestamp : Z) (data : BlockData) (previousHash : string).

Lemma mineLoop_more_fuel (fuel fuel' : nat) (nonce : Z) (hash : string) r :
  mineLoop fuel index timestamp data previousHash nonce hash = Some r ->
  (fuel <= fuel')%nat ->
  mineLoop fuel' index timestamp data previousHash nonce hash = Some r.
Proof.
  revert fuel' nonce hash.
  induction fuel as [|fuel IH]; intros fuel' nonce hash Hrun Hle; [discriminate|].
  destruct fuel' as [|fuel']; [lia|].
  cbn [mineLoop] in *.
  destruct (negb (startsWith hash DIFFICULTY_PREFIX)); [|exact Hrun].
  apply IH; [exact Hrun | lia].
Qed.

Lemma mineLoop_sound (fuel : nat) (nonce : Z) (hash h : string) (n : Z) :
  mineLoop fuel index timestamp data previousHash nonce hash = Some (h, n) ->
  (startsWith hash DIFFICULTY_PREFIX = true /\ h = hash /\ n = nonce)
  \/ (startsWith hash DIFFICULTY_PREFIX = false
      /\ nonce < n
      /\ h = computeHash index timestamp data previousHash n
      /\ qualifies index timestamp data previousHash n
      /\ forall m, nonce < m < n ->
           ~ qualifies index timestamp data previousHash m).
Proof.
  revert nonce hash.
  induction fuel as [|fuel IH]; intros nonce hash Hrun; [discriminate|].
  cbn [mineLoop] in Hrun.
  destruct (startsWith hash DIFFICULTY_PREFIX) eqn:Hstart; cbn [negb] in Hrun.
  - injection Hrun as <- <-. left. auto.
  - right. split; [reflexivity|].
    destruct (IH _ _ Hrun) as [(Hq & -> & ->) | (Hnq & Hlt & -> & Hq & Hleast)].
    + repeat split; [lia | exact Hq |].
      intros m Hm. lia.
    + repeat split; [lia | exact Hq |].
      intros m Hm Hqm.
      destruct (Z.eq_dec m (nonce + 1)) as [-> | Hne].
      * unfold qualifies in Hqm. congruence.
      * apply (Hleast m); [lia | exact Hqm].
Qed.

Lemma mineLoop_terminates (k : nat) (nonce : Z) (hash : string) :
  qualifies index timestamp data previousHash (nonce + Z.of_nat (S k)) ->
  exists r,
    mineLoop (S (S k)) index timestamp data previousHash nonce hash = Some r.
Proof.
  revert nonce hash.
  induction k as [|k IH]; intros nonce hash Hq.
  - cbn [mineLoop].
    destruct (negb (startsWith hash DIFFICULTY_PREFIX)); [|eauto].
    change (Z.of_nat 1) with 1 in Hq. unfold qualifies in Hq.
    rewrite Hq. cbn [negb]. eauto.
  - change (mineLoop (S (S (S k))) index timestamp data previousHash nonce hash)
      with (if negb (startsWith hash DIFFICULTY_PREFIX)
            then mineLoop (S (S k)) index timestamp data previousHash (nonce + 1)
                   (computeHash index timestamp data previousHash (nonce + 1))
            else Some (hash, nonce)).
    destruct (negb (startsWith hash DIFFICULTY_PREFIX)); [|eauto].
    apply IH.
    replace (nonce + 1 + Z.of_nat (S k)) with (nonce + Z.of_nat (S (S k))) by lia.
    exact Hq.
Qed.

(** What [mineBlock] returns, whenever it returns. *)
Lemma mineBlock_sound (fuel : nat) (h : string) (n : Z) :
  mineBlock fuel index timestamp data previousHash = Some (h, n) ->
  1 <= n
  /\ h = computeHash index timestamp data previousHash n
  /\ qualifies index timestamp data previousHash n
  /\ forall m, 1 <= m < n -> ~ qualifies index timestamp data previousHash m.
Proof.
  intros Hrun. unfold mineBlock in Hrun.
  destruct (mineLoop_sound _ _ _ _ _ Hrun)
    as [(Habs & _) | (_ & Hlt & -> & Hq & Hleast)]; [discriminate Habs|].
  repeat split; [lia | exact Hq |].
  intros m Hm. apply Hleast. lia.
Qed.

(** The loop stops as soon as some nonce of 1, 2, 3, ... qualifies. *)
Lemma mineBlock_terminates (n : Z) :
  1 <= n ->
  qualifies index timestamp data previousHash n ->
  exists h n0,
    mineBlock (S (Z.to_nat n)) index timestamp data previousHash = Some (h, n0).
Proof.
  intros Hn Hq.
  destruct (mineLoop_terminates (Z.to_nat n - 1) 0 EmptyString) as [[h n0] Hr].
  - replace (0 + Z.of_nat (S (Z.to_nat n - 1))) with n by lia. exact Hq.
  - exists h, n0. unfold mineBlock.
    replace (S (Z.to_nat n)) with (S (S (Z.to_nat n - 1))) by lia. exact Hr.
Qed.

End Mining.

Lemma least_qualifying_unique index timestamp data previousHash (a b : Z) :
  qualifies index timestamp data previousHash a ->
  qualifies index timestamp data previousHash b ->
  (forall m, 1 <= m < a -> ~ qualifies index timestamp data previousHash m) ->
  (forall m, 1 <= m < b -> ~ qualifies index timestamp data previousHash m) ->
  1 <= a -> 1 <= b -> a = b.
Proof.
  intros Qa Qb La Lb Ha Hb.
  destruct (Z.lt_trichotomy a b) as [Hlt | [Heq | Hgt]]; [|exact Heq|].
  - exfalso. apply (Lb a); [lia | exact Qa].
  - exfalso. apply (La b); [lia | exact Qb].
Qed.

(** The result of [mineBlock] does not depend on the bound, and is reached
    with any bound above the least qualifying nonce. *)
Lemma mineBlock_least index timestamp data previousHash (n : Z) :
  1 <= n ->
  qualifies index timestamp data previousHash n ->
  exists n0,
    1 <= n0 <= n
    /\ qualifies index timestamp data previousHash n0
    /\ (forall m, 1 <= m < n0 -> ~ qualifies index timestamp data previousHash m)
    /\ (forall fuel, (Z.to_nat n0 < fuel)%nat ->
          mineBlock fuel index timestamp data previousHash
          = Some (computeHash index timestamp data previousHash n0, n0))
    /\ (forall fuel h k,
          mineBlock fuel index timestamp data previousHash = Some (h, k) ->
          k = n0 /\ h = computeHash index timestamp data previousHash n0).
Proof.
  intros Hn Hq.
  destruct (mineBlock_terminates index timestamp data previousHash n Hn Hq)
    as (h & n0 & Hrun).
  destruct (mineBlock_sound _ _ _ _ _ _ _ Hrun) as (H1 & -> & Hq0 & Hleast).
  assert (Hle : n0 <= n).
  { destruct (Z_le_gt_dec n0 n) as [Hle | Hgt]; [exact Hle|].
    exfalso. apply (Hleast n); [lia | exact Hq]. }
  exists n0. repeat split; try assumption; try lia.
  - intros fuel Hfuel.
    destruct (mineBlock_terminates index timestamp data previousHash n0 H1 Hq0)
      as (h' & n' & Hrun').
    destruct (mineBlock_sound _ _ _ _ _ _ _ Hrun') as (H1' & -> & Hq' & Hleast').
    assert (n' = n0) as ->
      by (apply (least_qualifying_unique index timestamp data previousHash); assumption).
    unfold mineBlock in *.
    eapply mineLoop_more_fuel; [exact Hrun' | lia].
  - destruct (mineBlock_sound _ _ _ _ _ _ _ H) as (Hk & _ & Hqk & Hleastk).
    apply (least_qualifying_unique index timestamp data previousHash); assumption.
  - destruct (mineBlock_sound _ _ _ _ _ _ _ H) as (Hk & -> & Hqk & Hleastk).
    f_equal.
    apply (least_qualifying_unique index timestamp data previousHash); assumption.
Qed.

(** ** Lemmas on [getLatestBlock] and [addBlock] *)

Lemma getLatestBlock_last (this : Blockchain) :
  getLatestBlock this = last (chain this).
Proof.
  unfold getLatestBlock. rewrite last_lookup.
  destruct (chain this) as [|b c]; [reflexivity|].
  f_equal. cbn [length]. lia.
Qed.

Lemma getLatestBlock_snoc (c : list Block) (b : Block) :
  getLatestBlock (mkBlockchain (c ++ [b])) = Some b.
Proof. rewrite getLatestBlock_last. cbn [chain]. apply last_snoc. Qed.

Lemma getLatestBlock_lookup (this : Blockchain) (latest : Block) :
  getLatestBlock this = Some latest ->
  (1 <= length (chain this))%nat
  /\ chain this !! (length (chain this) - 1)%nat = Some latest.
Proof.
  unfold getLatestBlock. destruct (chain this) as [|b c] eqn:E; [discriminate|].
  intros H. split; [cbn [length]; lia | exact H].
Qed.

(** Everything [addBlock] does when it returns. *)
Lemma addBlock_inv fuel now d this b this' :
  addBlock fuel now d this = Returns (b, this') ->
  exists latest,
    getLatestBlock this = Some latest
    /\ b = mkBlock (index latest + 1) now d (hash latest)
             (computeHash (index latest + 1) now d (hash latest) (nonce b))
             (nonce b)
    /\ 1 <= nonce b
    /\ startsWith (hash b) DIFFICULTY_PREFIX = true
    /\ this' = mkBlockchain (chain this ++ [b]).
Proof.
  unfold addBlock.
  destruct (getLatestBlock this) as [latest|]; [|discriminate].
  destruct (mineBlock fuel (index latest + 1) now d (hash latest))
    as [[h n]|] eqn:Hmine; [|discriminate].
  intros [= <- <-].
  destruct (mineBlock_sound _ _ _ _ _ _ _ Hmine) as (Hn & -> & Hq & _).
  exists latest. cbn [nonce hash]. repeat split; [exact Hn | exact Hq].
Qed.

(** [addBlock] returns as soon as the bound exceeds a qualifying nonce. *)
Lemma addBlock_returns now d this latest (n : Z) :
  getLatestBlock this = Some latest ->
  1 <= n ->
  qualifies (index latest + 1) now d (hash latest) n ->
  exists b,
    (forall fuel, (Z.to_nat n < fuel)%nat ->
       addBlock fuel now d this = Returns (b, mkBlockchain (chain this ++ [b])))
    /\ (forall fuel r, addBlock fuel now d this = Returns r ->
          r = (b, mkBlockchain (chain this ++ [b])))
    /\ index b = index latest + 1
    /\ timestamp b = now
    /\ data b = d
    /\ previousHash b = hash latest
    /\ startsWith (hash b) DIFFICULTY_PREFIX = true.
Proof.
  intros Hlatest Hn Hq.
  destruct (mineBlock_least _ _ _ _ n Hn Hq)
    as (n0 & Hn0 & Hq0 & _ & Hrun & Hdet).
  exists (mkBlock (index latest + 1) now d (hash latest)
            (computeHash (index latest + 1) now d (hash latest) n0) n0).
  cbn [index timestamp data previousHash hash].
  repeat split; try reflexivity; [| |exact Hq0].
  - intros fuel Hfuel. unfold addBlock. rewrite Hlatest.
    rewrite Hrun by lia. reflexivity.
  - intros fuel r. unfold addBlock. rewrite Hlatest.
    destruct (mineBlock fuel (index latest + 1) now d (hash latest))
      as [[h k]|] eqn:Hmine; [|discriminate].
    destruct (Hdet _ _ _ Hmine) as [-> ->].
    intros [= <-]. reflexivity.
Qed.

Lemma addBlock_empty fuel now d :
  addBlock fuel now d (mkBlockchain []) = Throws_TypeError.
Proof. reflexivity. Qed.

(** Blocks of a ledger built by [addBlock] alone sit at their index, and
    all but the first carry a mined hash. *)
Lemma built_invariant (this : Blockchain) :
  built this ->
  forall (i : nat) (b : Block),
    chain this !! i = Some b ->
    index b = Z.of_nat i
    /\ ((1 <= i)%nat -> startsWith (hash b) DIFFICULTY_PREFIX = true).
Proof.
  induction 1 as [|fuel now d this b this' Hbuilt IH Hadd]; intros i blk Hi.
  - apply list_lookup_singleton_Some in Hi as [-> <-].
    split; [reflexivity | lia].
  - destruct (addBlock_inv _ _ _ _ _ _ Hadd)
      as (latest & Hlatest & Hb & _ & Hsealed & ->).
    destruct (getLatestBlock_lookup _ _ Hlatest) as [Hlen Hlast].
    destruct (IH _ _ Hlast) as [Hidx _].
    cbn [chain] in Hi.
    apply lookup_app_Some in Hi as [Hold | [Hge Hnew]]; [exact (IH _ _ Hold)|].
    apply list_lookup_singleton_Some in Hnew as [Hi0 <-].
    split; [|intros _; exact Hsealed].
    rewrite Hb. cbn [index]. lia.
Qed.

(** ** Lemmas on tampering with a sealed payload *)

Lemma linked_previous_hash (p p' : Block) (rest : list Block) :
  hash p = hash p' -> linked p rest = linked p' rest.
Proof.
  intros Heq. destruct rest as [|current rest]; [reflexivity|].
  cbn [linked]. unfold checks. rewrite Heq. reflexivity.
Qed.

(** The loop starts at 1: the payload of block 0 is never hashed again. *)
Lemma tamper_genesis_undetected (this : Blockchain) (d : BlockData) :
  isChainValid (tamperData 0 d this) = isChainValid this.
Proof.
  destruct this as [[|first rest]]; [reflexivity|].
  unfold tamperData. cbn [chain].
  change (alter (setData d) 0%nat (first :: rest)) with (setData d first :: rest).
  rewrite !isChainValid_cons.
  apply linked_previous_hash. reflexivity.
Qed.

Lemma linked_detects (rest : list Block) (previous current : Block) (j : nat) :
  rest !! j = Some current ->
  String.eqb (hash current)
    (computeHash (index current) (timestamp current) (data current)
                 (previousHash current) (nonce current)) = false ->
  linked previous rest = false.
Proof.
  revert previous j.
  induction rest as [|c rest IH]; intros previous j Hj Hne; [discriminate|].
  cbn [linked]. destruct j as [|j].
  - injection Hj as ->. unfold checks. rewrite Hne. reflexivity.
  - rewrite (IH c j Hj Hne). apply andb_false_r.
Qed.

(** Past block 0, an overwritten payload is detected unless its digest
    collides with the stored hash. *)
Lemma tamper_detected (this : Blockchain) (i : nat) (b : Block) (d : BlockData) :
  (1 <= i)%nat ->
  chain this !! i = Some b ->
  computeHash (index b) (timestamp b) d (previousHash b) (nonce b) <> hash b ->
  isChainValid (tamperData i d this) = false.
Proof.
  intros Hi Hb Hdigest.
  destruct this as [[|first rest]]; [discriminate|].
  destruct i as [|j]; [lia|].
  unfold tamperData. cbn [chain] in *.
  change (alter (setData d) (S j) (first :: rest))
    with (first :: alter (setData d) j rest).
  rewrite isChainValid_cons.
  apply (linked_detects _ _ (setData d b) j).
  - change (rest !! j = Some b) in Hb.
    rewrite list_lookup_alter_eq, Hb. reflexivity.
  - cbn [setData hash index timestamp data previousHash nonce].
    apply String.eqb_neq. congruence.
Qed.

(** ** Lemmas on sequences of calls *)

Lemma perform_nonempty (this : Blockchain) (c : call) :
  nonempty_candidate c -> chain this <> [] -> chain (perform this c) <> [].
Proof.
  intros Hc Hne. destruct c as [fuel now d | candidate]; cbn [perform].
  - destruct (addBlock fuel now d this) as [[b this']| |] eqn:Hadd; try exact Hne.
    destruct (addBlock_inv _ _ _ _ _ _ Hadd) as (_ & _ & _ & _ & _ & ->).
    cbn [chain]. intros Habs. apply app_eq_nil in Habs as [_ Habs]. discriminate.
  - cbn [nonempty_candidate] in Hc. unfold loadChain.
    destruct (negb (isChainValid (mkBlockchain candidate))); cbn [snd chain]; assumption.
Qed.

(** The ledger stays non-empty as long as no empty candidate is loaded. *)
Lemma calls_nonempty (calls : list call) (this : Blockchain) :
  Forall nonempty_candidate calls ->
  chain this <> [] ->
  chain (fold_left perform calls this) <> [].
Proof.
  revert this. induction calls as [|c calls IH]; intros this Hall Hne; [exact Hne|].
  inversion Hall as [|? ? Hc Hrest]; subst. cbn [fold_left].
  apply IH; [exact Hrest | apply perform_nonempty; assumption].
Qed.

Lemma post_report_blockData_anonymous
    reportId category urgency description identity citizenId location
    evidence authorities now :
  BlockData.identity
    (post_report_blockData reportId category urgency description identity
       citizenId location evidence authorities now) = anonymous ->
  BlockData.citizenId
    (post_report_blockData reportId category urgency description identity
       citizenId location evidence authorities now) = None.
Proof.
  unfold post_report_blockData. cbn [BlockData.identity BlockData.citizenId].
  intros ->. reflexivity.
Qed.

Lemma addBlock_R1 :
  addBlock 3 1760000000116 payloadR1 new_Blockchain = Returns (blockR1, ledgerR1).
Proof. vm_compute. reflexivity. Qed.

Lemma built_ledgerR1 : built ledgerR1.
Proof. exact (built_addBlock _ _ _ _ _ _ built_new addBlock_R1). Qed.

(** ** Lemmas on sums of doubles *)


(** At 2^53 the sum is not exact: adding 1 changes nothing. *)
Example js_add_one_at_2_53 :
  js_add 9007199254740992 1 = 9007199254740992
  /\ js_add 9007199254740994 1 = 9007199254740996.
Proof. split; reflexivity. Qed.

(** * The claims *)

(** C1 (tamper detection on content, genesis included): evaluation at the
    failing input.  [ledgerR1], the genesis block followed by one mined
    block, is valid.  Overwriting [reportId] in the payload of block 0,
    hash and nonce left as they were, gives a ledger that [isChainValid]
    still accepts; the same holds on a fresh ledger.  The loop of
    [isChainValid] starts at 1 and never hashes block 0 again. *)
Theorem C1_genesis_payload_tampering_undetected :
  isChainValid ledgerR1 = true
  /\ data createGenesisBlock <> forgedGenesisData
  /\ chain (tamperData 0 forgedGenesisData ledgerR1)
     = [setData forgedGenesisData createGenesisBlock; blockR1]
  /\ hash (setData forgedGenesisData createGenesisBlock) = hash createGenesisBlock
  /\ nonce (setData forgedGenesisData createGenesisBlock) = nonce createGenesisBlock
  /\ isChainValid (tamperData 0 forgedGenesisData ledgerR1) = true
  /\ isChainValid (tamperData 0 forgedGenesisData new_Blockchain) = true.
Proof.
  split; [exact ledgerR1_valid|].
  split; [intros H; apply (f_equal BlockData.reportId) in H; discriminate H|].
  split; [reflexivity|].
  split; [reflexivity|].
  split; [reflexivity|].
  rewrite !tamper_genesis_undetected.
  split; [exact ledgerR1_valid | reflexivity].
Qed.

(** C2 (never-empty ledger): evaluation at the failing input.  On a fresh
    ledger [loadChain] accepts the empty candidate and returns [true]; the
    chain is then empty, [getLatestBlock] yields [undefined], and the next
    [addBlock] throws instead of returning a block. *)
Theorem C2_empty_candidate_empties_the_ledger :
  loadChain [] new_Blockchain = (true, mkBlockchain [])
  /\ chain (snd (loadChain [] new_Blockchain)) = []
  /\ getLatestBlock (snd (loadChain [] new_Blockchain)) = None
  /\ addBlock 3 1760000000116 payloadR1 (snd (loadChain [] new_Blockchain))
     = Throws_TypeError.
Proof. repeat split. Qed.

(** C3, refuted as stated: at index 1, clock value 1760000013291, payload
    [payloadR1] and the genesis hash as previous hash, the digest obtained
    with nonce 0 starts with the difficulty prefix, so 0 is the smallest
    qualifying integer of 0, 1, 2, ...; [mineBlock] returns nonce 3. *)
Lemma C3_counterexample_nonce_zero_not_tried :
  qualifies 1 1760000013291 payloadR1 (hash createGenesisBlock) 0
  /\ mineBlock 10 1 1760000013291 payloadR1 (hash createGenesisBlock)
     = Some ("00b817e66fcfc18c3c3a9acbefb9dd1f92b461c6614f5c2ce10df6dd372e3071"%string, 3).
Proof. split; vm_compute; reflexivity. Qed.

(** C3 (as amended, mining search order): for every input for which some
    nonce of 1, 2, 3, ... qualifies, [mineBlock] returns the digest and the
    nonce of the smallest qualifying integer of the sequence 1, 2, 3, ...:
    it does so with every bound above that nonce, and no bound makes it
    return anything else.  Nonce 1 is tried first; nonce 0 is never
    returned. *)
Theorem C3_mineBlock_returns_least_nonce_from_one
    (index timestamp : Z) (data : BlockData) (previousHash : string) (n : Z) :
  1 <= n ->
  qualifies index timestamp data previousHash n ->
  exists n0,
    1 <= n0 <= n
    /\ qualifies index timestamp data previousHash n0
    /\ (forall m, 1 <= m < n0 -> ~ qualifies index timestamp data previousHash m)
    /\ (forall fuel, (Z.to_nat n0 < fuel)%nat ->
          mineBlock fuel index timestamp data previousHash
          = Some (computeHash index timestamp data previousHash n0, n0))
    /\ (forall fuel h k,
          mineBlock fuel index timestamp data previousHash = Some (h, k) ->
          k = n0 /\ h = computeHash index timestamp data previousHash n0).
Proof.
  intros Hn Hq.
  (* the loop stops within n + 1 evaluations of its condition ... *)
  destruct (mineBlock_terminates index timestamp data previousHash n Hn Hq)
    as (h & n0 & Hrun).
  (* ... on the least qualifying nonce from 1 on *)
  destruct (mineBlock_sound _ _ _ _ _ _ _ Hrun) as (H1 & -> & Hq0 & Hleast).
  assert (Hle : n0 <= n).
  { destruct (Z_le_gt_dec n0 n) as [Hle | Hgt]; [exact Hle|].
    exfalso. apply (Hleast n); [lia | exact Hq]. }
  exists n0.
  split; [lia|]. split; [exact Hq0|]. split; [exact Hleast|]. split.
  - intros fuel Hfuel.
    destruct (mineBlock_terminates index timestamp data previousHash n0 H1 Hq0)
      as (h' & n' & Hrun').
    destruct (mineBlock_sound _ _ _ _ _ _ _ Hrun') as (H1' & -> & Hq' & Hleast').
    assert (n' = n0) as ->
      by (apply (least_qualifying_unique index timestamp data previousHash);
          assumption).
    unfold mineBlock in *.
    eapply mineLoop_more_fuel; [exact Hrun' | lia].
  - intros fuel h k Hk.
    destruct (mineBlock_sound _ _ _ _ _ _ _ Hk) as (Hk1 & -> & Hqk & Hleastk).
    assert (k = n0) as ->
      by (apply (least_qualifying_unique index timestamp data previousHash);
          assumption).
    split; reflexivity.
Qed.

(** The amended C3 at the input of its counterexample, where nonce 3
    qualifies. *)
Lemma C3_witness :
  exists n0,
    1 <= n0 <= 3
    /\ qualifies 1 1760000013291 payloadR1 (hash createGenesisBlock) n0
    /\ (forall m, 1 <= m < n0 ->
          ~ qualifies 1 1760000013291 payloadR1 (hash createGenesisBlock) m)
    /\ (forall fuel, (Z.to_nat n0 < fuel)%nat ->
          mineBlock fuel 1 1760000013291 payloadR1 (hash createGenesisBlock)
          = Some (computeHash 1 1760000013291 payloadR1 (hash createGenesisBlock) n0, n0))
    /\ (forall fuel h k,
          mineBlock fuel 1 1760000013291 payloadR1 (hash createGenesisBlock) = Some (h, k) ->
          k = n0
          /\ h = computeHash 1 1760000013291 payloadR1 (hash createGenesisBlock) n0).
Proof.
  apply (C3_mineBlock_returns_least_nonce_from_one
           1 1760000013291 payloadR1 (hash createGenesisBlock) 3).
  - lia.
  - vm_compute. reflexivity.
Defined.

(** C4 (fail-safe load): for every candidate chain that fails validation,
    [loadChain] returns [false] and the ledger after the call is the
    ledger before the call. *)
Theorem C4_loadChain_invalid_candidate_keeps_ledger
    (candidate : list Block) (this : Blockchain) :
  isChainValid (mkBlockchain candidate) = false ->
  fst (loadChain candidate this) = false
  /\ snd (loadChain candidate this) = this
  /\ chain (snd (loadChain candidate this)) = chain this.
Proof.
  intros Hinvalid. rewrite (loadChain_invalid _ _ Hinvalid).
  repeat split.
Qed.

(** C4 on [ledgerR1], loading a copy of its chain in which the hash field
    of block 1 is corrupted. *)
Lemma C4_witness :
  isChainValid (mkBlockchain [createGenesisBlock; corruptedR1]) = false
  /\ fst (loadChain [createGenesisBlock; corruptedR1] ledgerR1) = false
  /\ snd (loadChain [createGenesisBlock; corruptedR1] ledgerR1) = ledgerR1
  /\ chain (snd (loadChain [createGenesisBlock; corruptedR1] ledgerR1))
     = chain ledgerR1.
Proof.
  split.
  - vm_compute. reflexivity.
  - apply (C4_loadChain_invalid_candidate_keeps_ledger
             [createGenesisBlock; corruptedR1] ledgerR1).
    vm_compute. reflexivity.
Defined.




(** C6 (proof-of-work invariant): in every ledger obtained from the
    constructor by calls of [addBlock], every block sits at the position
    given by its index, and every block of index at least 1 has a hash that
    starts with the difficulty prefix of two '0' characters. *)
Theorem C6_proof_of_work_invariant (this : Blockchain) :
  built this ->
  forall (i : nat) (b : Block),
    chain this !! i = Some b ->
    index b = Z.of_nat i
    /\ (1 <= index b -> startsWith (hash b) DIFFICULTY_PREFIX = true)
    /\ DIFFICULTY_PREFIX = "00"%string.
Proof.
  intros Hbuilt i b Hb.
  destruct (built_invariant this Hbuilt i b Hb) as [Hidx Hsealed].
  split; [exact Hidx|]. split; [|reflexivity].
  intros Hge. apply Hsealed. lia.
Qed.

(** C6 on [ledgerR1], built by one call of [addBlock]. *)
Lemma C6_witness :
  built ledgerR1
  /\ forall (i : nat) (b : Block),
       chain ledgerR1 !! i = Some b ->
       index b = Z.of_nat i
       /\ (1 <= index b -> startsWith (hash b) DIFFICULTY_PREFIX = true)
       /\ DIFFICULTY_PREFIX = "00"%string.
Proof.
  split.
  - exact built_ledgerR1.
  - apply (C6_proof_of_work_invariant ledgerR1). exact built_ledgerR1.
Defined.

(** C7 (round trip): on every ledger whose chain passes [isChainValid],
    [loadChain(getChain())] returns [true] and leaves the ledger as it
    was. *)
Theorem C7_loadChain_getChain_round_trip (this : Blockchain) :
  isChainValid this = true ->
  fst (loadChain (getChain this) this) = true
  /\ snd (loadChain (getChain this) this) = this
  /\ chain (snd (loadChain (getChain this) this)) = chain this.
Proof.
  intros Hvalid. destruct this as [c]. unfold getChain. cbn [chain].
  rewrite (loadChain_valid c (mkBlockchain c) Hvalid). repeat split.
Qed.

(** C7 on [ledgerR1]. *)
Lemma C7_witness :
  isChainValid ledgerR1 = true
  /\ fst (loadChain (getChain ledgerR1) ledgerR1) = true
  /\ snd (loadChain (getChain ledgerR1) ledgerR1) = ledgerR1
  /\ chain (snd (loadChain (getChain ledgerR1) ledgerR1)) = chain ledgerR1.
Proof.
  split.
  - vm_compute. reflexivity.
  - apply (C7_loadChain_getChain_round_trip ledgerR1). vm_compute. reflexivity.
Defined.

(** C8, refuted as stated: on a fresh ledger [addBlock] accepts the payload
    [payloadAnonymousWithId], whose identity is 'anonymous' and whose
    [citizenId] is "CIT-42", and seals it: the call returns a block, now
    the last of the chain, with identity 'anonymous' and that [citizenId]. *)
Lemma C8_counterexample_anonymous_block_with_citizenId :
  addBlock 2 1760000000088 payloadAnonymousWithId new_Blockchain
  = Returns (blockAnonymousWithId,
             mkBlockchain [createGenesisBlock; blockAnonymousWithId])
  /\ BlockData.identity (data blockAnonymousWithId) = anonymous
  /\ BlockData.citizenId (data blockAnonymousWithId) = Some "CIT-42"%string.
Proof. split; [vm_compute; reflexivity | split; reflexivity]. Qed.

(** C8 (as amended): [addBlock] neither rejects a payload nor strips
    anything from it.  On every ledger with a latest block and for every
    payload for which some nonce of 1, 2, 3, ... qualifies, the call
    returns, with every sufficient bound, a block whose [data] is the
    payload as it was passed, identity and [citizenId] included, and that
    block is the last of the chain; no bound makes the call throw.  A block
    sealed with identity 'anonymous' therefore carries a [citizenId]
    exactly when the caller's payload does. *)
Theorem C8_addBlock_seals_payload_as_given
    (this : Blockchain) (now : Z) (d : BlockData) (latest : Block) (n : Z) :
  getLatestBlock this = Some latest ->
  1 <= n ->
  qualifies (index latest + 1) now d (hash latest) n ->
  exists b this',
    (forall fuel, (Z.to_nat n < fuel)%nat ->
       addBlock fuel now d this = Returns (b, this'))
    /\ (forall fuel, addBlock fuel now d this <> Throws_TypeError)
    /\ data b = d
    /\ BlockData.identity (data b) = BlockData.identity d
    /\ BlockData.citizenId (data b) = BlockData.citizenId d
    /\ getLatestBlock this' = Some b.
Proof.
  intros Hlatest Hn Hq.
  destruct (addBlock_returns now d this latest n Hlatest Hn Hq)
    as (b & Hrun & _ & _ & _ & Hdata & _).
  exists b, (mkBlockchain (chain this ++ [b])).
  split; [exact Hrun|].
  split.
  { intros fuel. unfold addBlock. rewrite Hlatest.
    destruct (mineBlock fuel (index latest + 1) now d (hash latest)) as [[h k]|];
      discriminate. }
  rewrite Hdata. repeat split. apply getLatestBlock_snoc.
Qed.

(** The amended C8 at the input of its counterexample, where nonce 1
    qualifies. *)
Lemma C8_witness :
  exists b this',
    (forall fuel, (Z.to_nat 1 < fuel)%nat ->
       addBlock fuel 1760000000088 payloadAnonymousWithId new_Blockchain
       = Returns (b, this'))
    /\ (forall fuel,
          addBlock fuel 1760000000088 payloadAnonymousWithId new_Blockchain
          <> Throws_TypeError)
    /\ data b = payloadAnonymousWithId
    /\ BlockData.identity (data b) = BlockData.identity payloadAnonymousWithId
    /\ BlockData.citizenId (data b) = BlockData.citizenId payloadAnonymousWithId
    /\ getLatestBlock this' = Some b.
Proof.
  apply (C8_addBlock_seals_payload_as_given
           new_Blockchain 1760000000088 payloadAnonymousWithId createGenesisBlock 1).
  - reflexivity.
  - lia.
  - vm_compute. reflexivity.
Defined.

(** C10 (short chains): [isChainValid] returns [true] on the empty chain
    and on every chain of one block, whatever that block contains;
    [loadChain] therefore accepts the empty candidate and every one-block
    candidate, returns [true] and makes the candidate the active chain. *)
Theorem C10_chains_of_length_0_or_1_are_valid :
  isChainValid (mkBlockchain []) = true
  /\ (forall b : Block, isChainValid (mkBlockchain [b]) = true)
  /\ (forall this : Blockchain, loadChain [] this = (true, mkBlockchain []))
  /\ (forall (b : Block) (this : Blockchain),
        loadChain [b] this = (true, mkBlockchain [b])).
Proof. repeat split. Qed.

(** * Further properties of the code *)

(** ** Validation *)

Lemma checks_true (previous current : Block) :
  checks previous current = true <->
  hash current
  = computeHash (index current) (timestamp current) (data current)
                (previousHash current) (nonce current)
  /\ previousHash current = hash previous.
Proof.
  unfold checks. rewrite andb_true_iff, !String.eqb_eq. reflexivity.
Qed.

Lemma linked_pairs (rest : list Block) (first : Block) :
  linked first rest = true <->
  forall (i : nat) (previous current : Block),
    (first :: rest) !! i = Some previous ->
    (first :: rest) !! S i = Some current ->
    checks previous current = true.
Proof.
  revert first. induction rest as [|c rest IH]; intros first.
  - split; [|reflexivity]. intros _ i previous current _ Hcur.
    destruct i; discriminate Hcur.
  - cbn [linked]. rewrite andb_true_iff, IH. split.
    + intros [Hc Hrest] i previous current Hp Hcur.
      destruct i as [|i].
      * injection Hp as <-. injection Hcur as <-. exact Hc.
      * exact (Hrest i previous current Hp Hcur).
    + intros Hall. split.
      * exact (Hall 0%nat first c eq_refl eq_refl).
      * intros i previous current Hp Hcur.
        exact (Hall (S i) previous current Hp Hcur).
Qed.

(** X1: [isChainValid] returns [true] exactly when every block after the
    first stores the digest of its own fields as [hash] and the hash of the
    block just before it as [previousHash]. *)
Theorem isChainValid_iff_every_adjacent_pair_checks (this : Blockchain) :
  isChainValid this = true <->
  forall (i : nat) (previous current : Block),
    chain this !! i = Some previous ->
    chain this !! S i = Some current ->
    hash current
    = computeHash (index current) (timestamp current) (data current)
                  (previousHash current) (nonce current)
    /\ previousHash current = hash previous.
Proof.
  destruct this as [[|first rest]]; cbn [chain].
  - split; [|reflexivity]. intros _ i previous current Hp. discriminate Hp.
  - rewrite isChainValid_cons, linked_pairs.
    split; intros H i previous current Hp Hc.
    + apply checks_true. exact (H i previous current Hp Hc).
    + apply checks_true. exact (H i previous current Hp Hc).
Qed.

Lemma isChainValid_pairs (c : list Block) :
  isChainValid (mkBlockchain c) = true <->
  forall (i : nat) (previous current : Block),
    c !! i = Some previous -> c !! S i = Some current ->
    checks previous current = true.
Proof.
  destruct c as [|first rest].
  - split; [|reflexivity]. intros _ i previous current Hp. discriminate Hp.
  - rewrite isChainValid_cons. apply linked_pairs.
Qed.

Lemma isChainValid_false_at (c : list Block) (i : nat) (previous current : Block) :
  c !! i = Some previous -> c !! S i = Some current ->
  checks previous current = false ->
  isChainValid (mkBlockchain c) = false.
Proof.
  intros Hp Hc Hfail.
  destruct (isChainValid (mkBlockchain c)) eqn:Hvalid; [|reflexivity].
  rewrite (proj1 (isChainValid_pairs c) Hvalid i previous current Hp Hc) in Hfail.
  discriminate Hfail.
Qed.

Lemma addBlock_keeps_valid fuel now d this b this' :
  isChainValid this = true ->
  addBlock fuel now d this = Returns (b, this') ->
  isChainValid this' = true.
Proof.
  intros Hvalid Hadd.
  destruct (addBlock_inv _ _ _ _ _ _ Hadd) as (latest & Hlatest & Hb & _ & _ & ->).
  destruct (getLatestBlock_lookup _ _ Hlatest) as [Hlen Hlast].
  destruct this as [c]. cbn [chain] in *.
  apply isChainValid_pairs. intros i previous current Hp Hc.
  apply lookup_app_Some in Hc as [Hold | [Hge Hnew]].
  - assert (Hi : (i < length c)%nat) by (apply lookup_lt_Some in Hold; lia).
    rewrite lookup_app_l in Hp by exact Hi.
    exact (proj1 (isChainValid_pairs c) Hvalid i previous current Hp Hold).
  - apply list_lookup_singleton_Some in Hnew as [Hi <-].
    assert (i = (length c - 1)%nat) as -> by lia.
    rewrite lookup_app_l in Hp by lia.
    rewrite Hlast in Hp. injection Hp as <-.
    apply checks_true. rewrite Hb.
    cbn [hash index timestamp data previousHash nonce]. split; reflexivity.
Qed.

Lemma perform_keeps_valid (this : Blockchain) (c : call) :
  isChainValid this = true -> isChainValid (perform this c) = true.
Proof.
  intros Hvalid. destruct c as [fuel now d | candidate]; cbn [perform].
  - destruct (addBlock fuel now d this) as [[b this']| |] eqn:Hadd;
      [|exact Hvalid|exact Hvalid].
    exact (addBlock_keeps_valid _ _ _ _ _ _ Hvalid Hadd).
  - unfold loadChain.
    destruct (isChainValid (mkBlockchain candidate)) eqn:Hc; cbn [negb snd].
    + exact Hc.
    + destruct this. exact Hvalid.
Qed.

(** X2: validity is an invariant of the methods.  Starting from a ledger
    that passes [isChainValid], and in particular from a fresh one, any
    sequence of calls of [addBlock] and [loadChain], with any arguments,
    leaves a ledger that passes [isChainValid]. *)
Theorem isChainValid_invariant_of_calls (calls : list call) (this : Blockchain) :
  isChainValid this = true ->
  isChainValid (fold_left perform calls this) = true.
Proof.
  revert this. induction calls as [|c calls IH]; intros this Hvalid; [exact Hvalid|].
  cbn [fold_left]. apply IH, perform_keeps_valid, Hvalid.
Qed.

(** X2 on a fresh ledger: seal [payloadR1], try to load a corrupted copy,
    then load the empty chain. *)
Lemma isChainValid_invariant_of_calls_witness :
  isChainValid new_Blockchain = true
  /\ isChainValid
       (fold_left perform
          [call_addBlock 3 1760000000116 payloadR1;
           call_loadChain [createGenesisBlock; corruptedR1];
           call_loadChain []]
          new_Blockchain) = true.
Proof.
  split; [reflexivity|].
  apply (isChainValid_invariant_of_calls
           [call_addBlock 3 1760000000116 payloadR1;
            call_loadChain [createGenesisBlock; corruptedR1];
            call_loadChain []]
           new_Blockchain).
  reflexivity.
Defined.

(** X3: on a valid chain of at least two blocks, overwriting the stored
    [hash] of any block, the first included, with a different string makes
    [isChainValid] return [false]. *)
Theorem hash_corruption_detected
    (this : Blockchain) (i : nat) (b : Block) (h : string) :
  isChainValid this = true ->
  (2 <= length (chain this))%nat ->
  chain this !! i = Some b ->
  h <> hash b ->
  isChainValid (tamperHash i h this) = false.
Proof.
  intros Hvalid Hlen Hb Hne.
  destruct this as [c]. unfold tamperHash. cbn [chain] in *.
  pose proof (proj1 (isChainValid_pairs c) Hvalid) as Hpairs.
  destruct i as [|j].
  - (* block 0: the link of block 1 breaks *)
    destruct (lookup_lt_is_Some_2 c 1%nat ltac:(lia)) as [next Hnext].
    apply (isChainValid_false_at _ 0%nat (setHash h b) next).
    + rewrite list_lookup_alter_eq, Hb. reflexivity.
    + rewrite list_lookup_alter_ne by lia. exact Hnext.
    + destruct (proj1 (checks_true _ _) (Hpairs 0%nat b next Hb Hnext)) as [_ Hlink].
      unfold checks. cbn [setHash hash].
      replace (String.eqb (previousHash next) h) with false;
        [apply andb_false_r|].
      symmetry. apply String.eqb_neq. congruence.
  - (* a later block: its own hash check fails *)
    destruct (lookup_lt_is_Some_2 c j) as [previous Hprev];
      [apply lookup_lt_Some in Hb; lia|].
    apply (isChainValid_false_at _ j previous (setHash h b)).
    + rewrite list_lookup_alter_ne by lia. exact Hprev.
    + rewrite list_lookup_alter_eq, Hb. reflexivity.
    + destruct (proj1 (checks_true _ _) (Hpairs j previous b Hprev Hb)) as [Hself _].
      unfold checks. cbn [setHash hash index timestamp data previousHash nonce].
      replace (String.eqb h _) with false; [reflexivity|].
      symmetry. apply String.eqb_neq. congruence.
Qed.

Lemma hash_corruption_detected_witness :
  isChainValid ledgerR1 = true
  /\ (2 <= length (chain ledgerR1))%nat
  /\ chain ledgerR1 !! 0%nat = Some createGenesisBlock
  /\ "00"%string <> hash createGenesisBlock
  /\ isChainValid (tamperHash 0 "00" ledgerR1) = false.
Proof.
  assert (Hne : "00"%string <> hash createGenesisBlock)
    by (vm_compute; discriminate).
  split; [vm_compute; reflexivity|].
  split; [cbn; lia|].
  split; [reflexivity|].
  split; [exact Hne|].
  apply (hash_corruption_detected ledgerR1 0 createGenesisBlock "00").
  - vm_compute; reflexivity.
  - cbn; lia.
  - reflexivity.
  - exact Hne.
Defined.

(** X4: on a valid chain, overwriting the [previousHash] of any block after
    the first with a different string makes [isChainValid] return [false],
    whether or not the digest of the altered block still equals its stored
    hash. *)
Theorem previousHash_corruption_detected
    (this : Blockchain) (i : nat) (b : Block) (p : string) :
  isChainValid this = true ->
  (1 <= i)%nat ->
  chain this !! i = Some b ->
  p <> previousHash b ->
  isChainValid (tamperPreviousHash i p this) = false.
Proof.
  intros Hvalid Hi Hb Hne.
  destruct this as [c]. unfold tamperPreviousHash. cbn [chain] in *.
  destruct i as [|j]; [lia|].
  destruct (lookup_lt_is_Some_2 c j) as [previous Hprev];
    [apply lookup_lt_Some in Hb; lia|].
  apply (isChainValid_false_at _ j previous (setPreviousHash p b)).
  - rewrite list_lookup_alter_ne by lia. exact Hprev.
  - rewrite list_lookup_alter_eq, Hb. reflexivity.
  - destruct (proj1 (checks_true _ _)
                (proj1 (isChainValid_pairs c) Hvalid j previous b Hprev Hb))
      as [_ Hlink].
    unfold checks. cbn [setPreviousHash hash index timestamp data previousHash nonce].
    replace (String.eqb p (hash previous)) with false; [apply andb_false_r|].
    symmetry. apply String.eqb_neq. congruence.
Qed.

Lemma previousHash_corruption_detected_witness :
  isChainValid ledgerR1 = true
  /\ (1 <= 1)%nat
  /\ chain ledgerR1 !! 1%nat = Some blockR1
  /\ "0000000000000000"%string <> previousHash blockR1
  /\ isChainValid (tamperPreviousHash 1 "0000000000000000" ledgerR1) = false.
Proof.
  assert (Hne : "0000000000000000"%string <> previousHash blockR1)
    by (vm_compute; discriminate).
  split; [vm_compute; reflexivity|].
  split; [lia|].
  split; [reflexivity|].
  split; [exact Hne|].
  apply (previousHash_corruption_detected ledgerR1 1 blockR1 "0000000000000000").
  - vm_compute; reflexivity.
  - lia.
  - reflexivity.
  - exact Hne.
Defined.

Lemma isChainValid_snoc (c : list Block) (latest b : Block) :
  isChainValid (mkBlockchain c) = true ->
  getLatestBlock (mkBlockchain c) = Some latest ->
  checks latest b = true ->
  isChainValid (mkBlockchain (c ++ [b])) = true.
Proof.
  intros Hvalid Hlatest Hchecks.
  destruct (getLatestBlock_lookup _ _ Hlatest) as [Hlen Hlast]. cbn [chain] in *.
  apply isChainValid_pairs. intros i previous current Hp Hc.
  apply lookup_app_Some in Hc as [Hold | [Hge Hnew]].
  - assert (Hi : (i < length c)%nat) by (apply lookup_lt_Some in Hold; lia).
    rewrite lookup_app_l in Hp by exact Hi.
    exact (proj1 (isChainValid_pairs c) Hvalid i previous current Hp Hold).
  - apply list_lookup_singleton_Some in Hnew as [Hi <-].
    assert (i = (length c - 1)%nat) as -> by lia.
    rewrite lookup_app_l in Hp by lia.
    rewrite Hlast in Hp. injection Hp as <-. exact Hchecks.
Qed.

(** X5: validation checks neither the difficulty prefix nor the index.  A
    valid chain stays valid when one appends a block written by hand whose
    [previousHash] is the latest hash and whose [hash] is [computeHash] of
    its fields, whatever its index, timestamp, payload and nonce; and
    [loadChain] adopts the extended chain on any ledger. *)
Theorem hand_sealed_block_extends_valid_chain
    (this other : Blockchain) (latest : Block)
    (index timestamp : Z) (data : BlockData) (nonce : Z) :
  isChainValid this = true ->
  getLatestBlock this = Some latest ->
  isChainValid
    (mkBlockchain (chain this ++ [handSealed index timestamp data (hash latest) nonce]))
  = true
  /\ loadChain (chain this ++ [handSealed index timestamp data (hash latest) nonce]) other
     = (true,
        mkBlockchain (chain this ++ [handSealed index timestamp data (hash latest) nonce])).
Proof.
  intros Hvalid Hlatest. destruct this as [c]. cbn [chain].
  assert (Hext : isChainValid
            (mkBlockchain (c ++ [handSealed index timestamp data (hash latest) nonce]))
          = true).
  { apply (isChainValid_snoc c latest); [exact Hvalid | exact Hlatest |].
    apply checks_true. split; reflexivity. }
  split; [exact Hext | exact (loadChain_valid _ other Hext)].
Qed.

(** X5 on a fresh ledger: a block of index 7, timestamp 5 and nonce 0,
    whose hash does not start with the difficulty prefix, is accepted. *)
Lemma hand_sealed_block_extends_valid_chain_witness :
  startsWith
    (hash (handSealed 7 5 payloadR1 (hash createGenesisBlock) 0))
    DIFFICULTY_PREFIX = false
  /\ isChainValid
       (mkBlockchain
          (chain new_Blockchain
           ++ [handSealed 7 5 payloadR1 (hash createGenesisBlock) 0])) = true
  /\ loadChain
       (chain new_Blockchain
        ++ [handSealed 7 5 payloadR1 (hash createGenesisBlock) 0]) ledgerR1
     = (true,
        mkBlockchain
          (chain new_Blockchain
           ++ [handSealed 7 5 payloadR1 (hash createGenesisBlock) 0])).
Proof.
  split; [vm_compute; reflexivity|].
  apply (hand_sealed_block_extends_valid_chain
           new_Blockchain ledgerR1 createGenesisBlock 7 5 payloadR1 0);
    reflexivity.
Defined.

(** X6: dropping blocks at either end is not detected.  Every contiguous
    segment of a valid chain, in particular every prefix and every suffix,
    passes [isChainValid]; [loadChain] called with such a segment of the
    ledger's own chain returns [true] and leaves the shorter chain as the
    active one. *)
Theorem dropping_end_blocks_undetected (this : Blockchain) (m n : nat) :
  isChainValid this = true ->
  isChainValid (mkBlockchain (take n (drop m (chain this)))) = true
  /\ loadChain (take n (drop m (chain this))) this
     = (true, mkBlockchain (take n (drop m (chain this)))).
Proof.
  intros Hvalid. destruct this as [c]. cbn [chain].
  assert (Hsegment : isChainValid (mkBlockchain (take n (drop m c))) = true).
  { apply isChainValid_pairs. intros i previous current Hp Hc.
    apply lookup_take_Some in Hp as [Hp _].
    apply lookup_take_Some in Hc as [Hc _].
    rewrite lookup_drop in Hp, Hc.
    replace (m + S i)%nat with (S (m + i)) in Hc by lia.
    exact (proj1 (isChainValid_pairs c) Hvalid (m + i)%nat previous current Hp Hc). }
  split; [exact Hsegment | exact (loadChain_valid _ _ Hsegment)].
Qed.

(** X6 on [ledgerR2]: loading its middle block alone drops the genesis
    block and report R2. *)
Lemma dropping_end_blocks_undetected_witness :
  isChainValid ledgerR2 = true
  /\ take 1 (drop 1 (chain ledgerR2)) = [blockR1]
  /\ isChainValid (mkBlockchain (take 1 (drop 1 (chain ledgerR2)))) = true
  /\ loadChain (take 1 (drop 1 (chain ledgerR2))) ledgerR2
     = (true, mkBlockchain (take 1 (drop 1 (chain ledgerR2)))).
Proof.
  split; [vm_compute; reflexivity|].
  split; [reflexivity|].
  apply (dropping_end_blocks_undetected ledgerR2 1 1). vm_compute; reflexivity.
Defined.

(** X14: on a valid chain, removing a block that has a block before it and
    a block after it makes [isChainValid] return [false], provided the
    removed block and the one before it do not have the same hash. *)
Theorem interior_deletion_detected
    (this : Blockchain) (i : nat) (before removed : Block) :
  isChainValid this = true ->
  chain this !! i = Some before ->
  chain this !! S i = Some removed ->
  (S (S i) < length (chain this))%nat ->
  hash before <> hash removed ->
  isChainValid (deleteBlock (S i) this) = false.
Proof.
  intros Hvalid Hbefore Hremoved Hlen Hne.
  destruct this as [c]. unfold deleteBlock. cbn [chain] in *.
  destruct (lookup_lt_is_Some_2 c (S (S i)) Hlen) as [after Hafter].
  destruct (proj1 (checks_true _ _)
              (proj1 (isChainValid_pairs c) Hvalid (S i) removed after Hremoved Hafter))
    as [_ Hlink].
  apply (isChainValid_false_at _ i before after).
  - rewrite list_lookup_delete_lt by lia. exact Hbefore.
  - rewrite list_lookup_delete_ge by lia. exact Hafter.
  - unfold checks.
    replace (String.eqb (previousHash after) (hash before)) with false;
      [apply andb_false_r|].
    symmetry. apply String.eqb_neq. congruence.
Qed.

(** X14 on [ledgerR2], removing [blockR1]. *)
Lemma interior_deletion_detected_witness :
  isChainValid ledgerR2 = true
  /\ hash createGenesisBlock <> hash blockR1
  /\ chain (deleteBlock 1 ledgerR2) = [createGenesisBlock; blockR2]
  /\ isChainValid (deleteBlock 1 ledgerR2) = false.
Proof.
  assert (Hne : hash createGenesisBlock <> hash blockR1)
    by (vm_compute; discriminate).
  split; [vm_compute; reflexivity|].
  split; [exact Hne|].
  split; [reflexivity|].
  apply (interior_deletion_detected ledgerR2 0 createGenesisBlock blockR1).
  - vm_compute; reflexivity.
  - reflexivity.
  - reflexivity.
  - cbn; lia.
  - exact Hne.
Defined.

(** X15: on a valid chain, exchanging two adjacent blocks that come after
    the first makes [isChainValid] return [false], provided the earlier of
    the two and the block before it do not have the same hash. *)
Theorem adjacent_swap_detected
    (this : Blockchain) (i : nat) (before x y : Block) :
  isChainValid this = true ->
  chain this !! i = Some before ->
  chain this !! S i = Some x ->
  chain this !! S (S i) = Some y ->
  hash before <> hash x ->
  isChainValid (swapAdjacent (S i) this) = false.
Proof.
  intros Hvalid Hbefore Hx Hy Hne.
  destruct this as [c]. unfold swapAdjacent. cbn [chain] in *.
  rewrite Hx, Hy.
  destruct (proj1 (checks_true _ _)
              (proj1 (isChainValid_pairs c) Hvalid (S i) x y Hx Hy))
    as [_ Hlink].
  assert (Hlt : (S i < length c)%nat) by (apply lookup_lt_Some in Hx; exact Hx).
  apply (isChainValid_false_at _ i before y).
  - rewrite !list_lookup_insert_ne by lia. exact Hbefore.
  - rewrite list_lookup_insert_ne by lia.
    apply list_lookup_insert_eq. exact Hlt.
  - unfold checks.
    replace (String.eqb (previousHash y) (hash before)) with false;
      [apply andb_false_r|].
    symmetry. apply String.eqb_neq. congruence.
Qed.

(** X15 on [ledgerR2], exchanging [blockR1] and [blockR2]. *)
Lemma adjacent_swap_detected_witness :
  isChainValid ledgerR2 = true
  /\ hash createGenesisBlock <> hash blockR1
  /\ chain (swapAdjacent 1 ledgerR2) = [createGenesisBlock; blockR2; blockR1]
  /\ isChainValid (swapAdjacent 1 ledgerR2) = false.
Proof.
  assert (Hne : hash createGenesisBlock <> hash blockR1)
    by (vm_compute; discriminate).
  split; [vm_compute; reflexivity|].
  split; [exact Hne|].
  split; [reflexivity|].
  apply (adjacent_swap_detected ledgerR2 0 createGenesisBlock blockR1 blockR2).
  - vm_compute; reflexivity.
  - reflexivity.
  - reflexivity.
  - reflexivity.
  - exact Hne.
Defined.

(** ** Lookup *)

(** X7: [findBlockByReportId] returns the first block, in chain order,
    whose payload carries the given [reportId], and [null] exactly when no
    block carries it. *)
Theorem findBlockByReportId_first_match (r : string) (this : Blockchain) :
  match findBlockByReportId r this with
  | Some b =>
      exists i : nat,
        chain this !! i = Some b
        /\ BlockData.reportId (data b) = r
        /\ forall (j : nat) (earlier : Block),
             (j < i)%nat -> chain this !! j = Some earlier ->
             BlockData.reportId (data earlier) <> r
  | None =>
      forall (i : nat) (b : Block),
        chain this !! i = Some b -> BlockData.reportId (data b) <> r
  end.
Proof.
  unfold findBlockByReportId. destruct this as [c]. cbn [chain].
  induction c as [|x c IH]; cbn [find].
  - intros i b Hb. discriminate Hb.
  - destruct (String.eqb (BlockData.reportId (data x)) r) eqn:Hx.
    + apply String.eqb_eq in Hx. exists 0%nat.
      split; [reflexivity|]. split; [exact Hx|]. intros j earlier Hj. lia.
    + apply String.eqb_neq in Hx.
      destruct (find _ c) as [b|].
      * destruct IH as (i & Hi & Hr & Hfirst). exists (S i).
        split; [exact Hi|]. split; [exact Hr|].
        intros [|j] earlier Hj Hearlier.
        -- injection Hearlier as <-. exact Hx.
        -- apply (Hfirst j earlier); [lia | exact Hearlier].
      * intros [|i] b Hb.
        -- injection Hb as <-. exact Hx.
        -- exact (IH i b Hb).
Qed.

Lemma find_snoc {A : Type} (f : A -> bool) (l : list A) (x : A) :
  find f (l ++ [x])
  = match find f l with
    | Some y => Some y
    | None => if f x then Some x else None
    end.
Proof.
  induction l as [|y l IH]; cbn [app find]; [reflexivity|].
  destruct (f y); [reflexivity | exact IH].
Qed.

(** X8: after [addBlock] returns, every report id that was found is still
    found, with the same block; an id that was not found is found
    afterwards exactly when it is the [reportId] of the new payload.  A
    payload that reuses an existing [reportId] is sealed, but lookups keep
    returning the earlier block. *)
Theorem findBlockByReportId_after_addBlock
    (fuel : nat) (now : Z) (d : BlockData) (this this' : Blockchain)
    (b : Block) (r : string) :
  addBlock fuel now d this = Returns (b, this') ->
  findBlockByReportId r this'
  = match findBlockByReportId r this with
    | Some old => Some old
    | None => if String.eqb (BlockData.reportId d) r then Some b else None
    end.
Proof.
  intros Hadd.
  destruct (addBlock_inv _ _ _ _ _ _ Hadd) as (latest & _ & Hb & _ & _ & ->).
  assert (Hd : data b = d) by (rewrite Hb; reflexivity).
  unfold findBlockByReportId. cbn [chain]. rewrite find_snoc.
  cbv beta. rewrite Hd. reflexivity.
Qed.

(** X8 on a fresh ledger, sealing [payloadR1] and looking up "R1". *)
Lemma findBlockByReportId_after_addBlock_witness :
  addBlock 3 1760000000116 payloadR1 new_Blockchain = Returns (blockR1, ledgerR1)
  /\ findBlockByReportId "R1" ledgerR1
     = match findBlockByReportId "R1" new_Blockchain with
       | Some old => Some old
       | None =>
           if String.eqb (BlockData.reportId payloadR1) "R1"
           then Some blockR1 else None
       end.
Proof.
  split; [exact addBlock_R1|].
  apply (findBlockByReportId_after_addBlock
           3 1760000000116 payloadR1 new_Blockchain ledgerR1 blockR1 "R1").
  exact addBlock_R1.
Defined.

(** ** The callers *)

(** X9: restoring at startup.  Whatever [loadBlockchainState] returned,
    the ledger after step 2 of [start] is never empty and passes
    [isChainValid], so the integrity check of step 3 cannot fail; it holds
    the saved chain exactly when that chain has more than one block and is
    valid, and the fresh genesis ledger otherwise. *)
Theorem restore_leaves_valid_nonempty_ledger (savedChain : option (list Block)) :
  chain (snd (restore savedChain new_Blockchain)) <> []
  /\ isChainValid (snd (restore savedChain new_Blockchain)) = true
  /\ match fst (restore savedChain new_Blockchain) with
     | log_restored n =>
         exists saved,
           savedChain = Some saved
           /\ n = length saved
           /\ (1 < length saved)%nat
           /\ isChainValid (mkBlockchain saved) = true
           /\ snd (restore savedChain new_Blockchain) = mkBlockchain saved
     | log_restore_failed =>
         exists saved,
           savedChain = Some saved
           /\ (1 < length saved)%nat
           /\ isChainValid (mkBlockchain saved) = false
           /\ snd (restore savedChain new_Blockchain) = new_Blockchain
     | log_initialized_with_genesis =>
         (savedChain = None
          \/ exists saved, savedChain = Some saved /\ (length saved <= 1)%nat)
         /\ snd (restore savedChain new_Blockchain) = new_Blockchain
     end.
Proof.
  assert (Hfresh : chain new_Blockchain <> []) by discriminate.
  assert (Hfresh_valid : isChainValid new_Blockchain = true) by reflexivity.
  unfold restore. destruct savedChain as [saved|]; cbn [fst snd].
  2:{ split; [exact Hfresh|]. split; [exact Hfresh_valid|]. split; [left|]; reflexivity. }
  destruct (1 <? length saved)%nat eqn:Hlen.
  - apply Nat.ltb_lt in Hlen.
    destruct (isChainValid (mkBlockchain saved)) eqn:Hvalid.
    + rewrite (loadChain_valid saved new_Blockchain Hvalid). cbn [fst snd chain].
      split; [intros ->; cbn in Hlen; lia|].
      split; [exact Hvalid|].
      exists saved. repeat split; assumption.
    + rewrite (loadChain_invalid saved new_Blockchain Hvalid). cbn [fst snd].
      split; [exact Hfresh|]. split; [exact Hfresh_valid|].
      exists saved. repeat split; assumption.
  - apply Nat.ltb_ge in Hlen. cbn [fst snd].
    split; [exact Hfresh|]. split; [exact Hfresh_valid|].
    split; [right; exists saved; split; [reflexivity | exact Hlen] | reflexivity].
Qed.

(** X10: a block sealed by the route [POST /api/reports] carries no
    [citizenId] when the report is anonymous, even if the request body had
    one, and the submitted one when the report is named; it holds the
    SHA-256 digests of the description and of each evidence entry, never
    the description itself as a field, and its status is PENDING. *)
Theorem post_report_sealed_block
    (fuel : nat) (clock now : Z)
    (reportId category urgency description : string)
    (identity : Identity) (citizenId : option string) (location : Location)
    (evidence authorities : list string)
    (this this' : Blockchain) (b : Block) :
  addBlock fuel clock
    (post_report_blockData reportId category urgency description identity
       citizenId location evidence authorities now) this
  = Returns (b, this') ->
  (BlockData.identity (data b) = anonymous -> BlockData.citizenId (data b) = None)
  /\ (BlockData.identity (data b) = name -> BlockData.citizenId (data b) = citizenId)
  /\ BlockData.descriptionHash (data b) = hashData description
  /\ BlockData.evidenceHashes (data b) = map hashData evidence
  /\ length (BlockData.evidenceHashes (data b)) = length evidence
  /\ BlockData.status (data b) = PENDING
  /\ getLatestBlock this' = Some b.
Proof.
  intros Hadd.
  destruct (addBlock_inv _ _ _ _ _ _ Hadd) as (latest & _ & Hb & _ & _ & ->).
  assert (Hd : data b
               = post_report_blockData reportId category urgency description
                   identity citizenId location evidence authorities now)
    by (rewrite Hb; reflexivity).
  rewrite Hd. unfold post_report_blockData.
  cbn [BlockData.identity BlockData.citizenId BlockData.descriptionHash
       BlockData.evidenceHashes BlockData.status].
  split; [intros ->; reflexivity|].
  split; [intros ->; reflexivity|].
  split; [reflexivity|]. split; [reflexivity|].
  split; [apply length_map|]. split; [reflexivity|].
  apply getLatestBlock_snoc.
Qed.

(** X10 on a fresh ledger, for an anonymous report whose request body
    carries the citizen id "CIT-42". *)
Lemma post_report_sealed_block_witness :
  let d :=
    post_report_blockData "R9" "Infrastructure" "Medium" "pothole near the park"
      anonymous (Some "CIT-42"%string)
      (mkLocation "Kolkata" "Park Street" "Park Street Police Station")
      ["photo-1"%string] ["Municipal Corporation"%string] 1760000000010 in
  let b :=
    mkBlock 1 1760000000011 d (hash createGenesisBlock)
      "001114cd7b5cfbf073e67e60dfef3a28878ca6db5995972a41ac2a6dcf1aa283" 1 in
  addBlock 2 1760000000011 d new_Blockchain
  = Returns (b, mkBlockchain [createGenesisBlock; b])
  /\ (BlockData.identity (data b) = anonymous -> BlockData.citizenId (data b) = None)
  /\ (BlockData.identity (data b) = name
      -> BlockData.citizenId (data b) = Some "CIT-42"%string)
  /\ BlockData.descriptionHash (data b) = hashData "pothole near the park"
  /\ BlockData.evidenceHashes (data b) = map hashData ["photo-1"%string]
  /\ length (BlockData.evidenceHashes (data b)) = length ["photo-1"%string]
  /\ BlockData.status (data b) = PENDING
  /\ getLatestBlock (mkBlockchain [createGenesisBlock; b]) = Some b.
Proof.
  intros d b.
  assert (Hadd : addBlock 2 1760000000011 d new_Blockchain
                 = Returns (b, mkBlockchain [createGenesisBlock; b]))
    by (vm_compute; reflexivity).
  split; [exact Hadd|].
  exact (post_report_sealed_block 2 1760000000011 1760000000010
           "R9" "Infrastructure" "Medium" "pothole near the park"
           anonymous (Some "CIT-42"%string)
           (mkLocation "Kolkata" "Park Street" "Park Street Police Station")
           ["photo-1"%string] ["Municipal Corporation"%string]
           new_Blockchain (mkBlockchain [createGenesisBlock; b]) b Hadd).
Defined.

(** ** The digests *)

Lemma hexdigit_is_hex (x : Z) :
  is_hex_char (SHA256.hexdigit (Z.land x 15)) = true.
Proof.
  change 15 with (Z.ones 4). rewrite Z.land_ones by lia.
  pose proof (Z.mod_pos_bound x (2 ^ 4) ltac:(lia)) as Hm.
  change (2 ^ 4) with 16 in *.
  assert (Hcases : x mod 16 = 0 \/ x mod 16 = 1 \/ x mod 16 = 2 \/ x mod 16 = 3
                   \/ x mod 16 = 4 \/ x mod 16 = 5 \/ x mod 16 = 6 \/ x mod 16 = 7
                   \/ x mod 16 = 8 \/ x mod 16 = 9 \/ x mod 16 = 10 \/ x mod 16 = 11
                   \/ x mod 16 = 12 \/ x mod 16 = 13 \/ x mod 16 = 14 \/ x mod 16 = 15)
    by lia.
  repeat (destruct Hcases as [-> | Hcases]; [reflexivity|]).
  rewrite Hcases. reflexivity.
Qed.

Lemma hex_format (r : SHA256.regs) :
  String.length (SHA256.hex r) = 64%nat
  /\ all_chars is_hex_char (SHA256.hex r) = true.
Proof.
  unfold SHA256.hex, SHA256.hex32. cbn [fold_right String.length all_chars].
  rewrite !hexdigit_is_hex. split; reflexivity.
Qed.

Lemma Utf8_parse_well_formed (n : nat) :
  forall s : list Z, (length s <= n)%nat ->
    (exists bytes, Utf8_parse s = Some bytes) <-> well_formed_utf16 s.
Proof.
  induction n as [|n IH]; intros s Hlen.
  - destruct s; [|cbn in Hlen; lia].
    split; [constructor | exists EmptyString; reflexivity].
  - destruct s as [|u rest]; [split; [constructor | exists EmptyString; reflexivity]|].
    cbn [length] in Hlen. cbn [Utf8_parse].
    destruct (is_high_surrogate u) eqn:Hhigh.
    + destruct rest as [|l rest'].
      * split; [intros [? [=]]|].
        intros Hwf. inversion Hwf; subst; congruence.
      * cbn [length] in Hlen.
        destruct (is_low_surrogate l) eqn:Hlow.
        -- assert (Hrest : (length rest' <= n)%nat) by lia.
           specialize (IH rest' Hrest). split.
           ++ intros [bytes Hb].
              destruct (Utf8_parse rest') as [rest_bytes|]; [|discriminate].
              apply wf_pair; [assumption..|]. apply IH. eauto.
           ++ intros Hwf. inversion Hwf; subst; [congruence|].
              destruct (proj2 IH H4) as [rest_bytes ->]. eauto.
        -- split; [intros [? [=]]|].
           intros Hwf. inversion Hwf; subst; congruence.
    + destruct (is_low_surrogate u) eqn:Hlow.
      * split; [intros [? [=]]|].
        intros Hwf. inversion Hwf; subst; congruence.
      * assert (Hrest : (length rest <= n)%nat) by lia.
        specialize (IH rest Hrest). split.
        -- intros [bytes Hb].
           destruct (Utf8_parse rest) as [rest_bytes|]; [|discriminate].
           apply wf_unit; [assumption..|]. apply IH. eauto.
        -- intros Hwf. inversion Hwf; subst; [|congruence].
           destruct (proj2 IH H3) as [rest_bytes ->]. eauto.
Qed.

(** X11: [hashData], called on a JavaScript string, throws [URIError]
    exactly when the string is not well-formed UTF-16 (it holds a
    surrogate that is not half of a pair), and otherwise returns a string
    of exactly 64 characters, each a lowercase hexadecimal digit.
    [computeHash] always returns such a string, so the 16-character
    [previousHash] of the genesis block is the hash of no block. *)
Theorem hashData_throws_or_returns_64_hex_characters :
  (forall s : list Z,
     match hashData_utf16 s with
     | Some h =>
         well_formed_utf16 s
         /\ String.length h = 64%nat
         /\ all_chars is_hex_char h = true
     | None => ~ well_formed_utf16 s
     end)
  /\ (forall (i t : Z) (d : BlockData) (p : string) (n : Z),
        String.length (computeHash i t d p n) = 64%nat
        /\ all_chars is_hex_char (computeHash i t d p n) = true
        /\ computeHash i t d p n <> previousHash createGenesisBlock).
Proof.
  split.
  - intros s. unfold hashData_utf16.
    pose proof (Utf8_parse_well_formed (length s) s (Nat.le_refl _)) as Hwf.
    destruct (Utf8_parse s) as [bytes|].
    + split; [apply Hwf; eauto | apply hex_format].
    + intros Hs. apply Hwf in Hs as [bytes [=]].
  - intros i t d p n.
    destruct (hex_format
      (SHA256.blocks
         (Nat.div (length (SHA256.words (SHA256.pad (SHA256.bytes_of_string
            (content i t d p n))))) 16)
         SHA256.initial
         (SHA256.words (SHA256.pad (SHA256.bytes_of_string
            (content i t d p n))))))
      as [Hlen Hhex].
    change (String.length (computeHash i t d p n) = 64%nat) in Hlen.
    change (all_chars is_hex_char (computeHash i t d p n) = true) in Hhex.
    split; [exact Hlen|]. split; [exact Hhex|].
    intros Heq. rewrite Heq in Hlen. discriminate Hlen.
Qed.

Example hashData_utf16_examples :
  hashData_utf16 [97; 55357; 56832; 233]
  = Some "60e13262d448a8327838ccb98b3c2385f7ce519bb96a1cb24321362ce9c1cf46"%string
  /\ hashData_utf16 [97; 55357; 233] = None
  /\ hashData_utf16 [56832] = None.
Proof. repeat split; vm_compute; reflexivity. Qed.

(** ** The encoding *)

Lemma string_app_assoc (a b c : string) : ((a ++ b) ++ c = a ++ (b ++ c))%string.
Proof. induction a as [|x a IH]; cbn [String.append]; [reflexivity | rewrite IH; reflexivity]. Qed.

Lemma string_app_cancel (pre a b : string) : (pre ++ a = pre ++ b)%string -> a = b.
Proof. induction pre as [|x pre IH]; cbn [String.append]; [auto|]. intros [= H]. auto. Qed.

Lemma escape_char_app (c : ascii) (r k : string) :
  (JSON.escape_char c r ++ k = JSON.escape_char c (r ++ k))%string.
Proof.
  destruct c as [[] [] [] [] [] [] [] []]; reflexivity.
Qed.

Lemma unquote_body_escape_char (c : ascii) (r : string) :
  unquote_body (JSON.escape_char c r)
  = match unquote_body r with
    | Some (body, k) => Some (String c body, k)
    | None => None
    end.
Proof.
  destruct c as [[] [] [] [] [] [] [] []]; reflexivity.
Qed.

Lemma unquote_body_escape (s k : string) :
  unquote_body (JSON.escape s ++ String JSON.dquote k) = Some (s, k).
Proof.
  induction s as [|c s IH]; [reflexivity|].
  cbn [JSON.escape]. rewrite escape_char_app, unquote_body_escape_char, IH.
  reflexivity.
Qed.

Lemma unquote_quote (s k : string) : unquote (JSON.quote s ++ k) = Some (s, k).
Proof.
  unfold JSON.quote. cbn [String.append unquote].
  rewrite string_app_assoc. cbn [String.append].
  change (Ascii.eqb JSON.dquote JSON.dquote) with true. cbv iota.
  apply unquote_body_escape.
Qed.

Lemma quote_cancel (s s' a b : string) :
  (JSON.quote s ++ a = JSON.quote s' ++ b)%string -> s = s' /\ a = b.
Proof.
  intros H. apply (f_equal unquote) in H. rewrite !unquote_quote in H.
  injection H as -> ->. split; reflexivity.
Qed.

Lemma span_app (p : ascii -> bool) (a : string) (c : ascii) (r : string) :
  all_chars p a = true -> p c = false ->
  span p (a ++ String c r) = (a, String c r).
Proof.
  intros Ha Hc. induction a as [|x a IH]; cbn [String.append span].
  - rewrite Hc. reflexivity.
  - cbn [all_chars] in Ha. apply andb_true_iff in Ha as [Hx Ha].
    rewrite Hx, (IH Ha). reflexivity.
Qed.

Lemma string_of_uint_chars (d : Decimal.uint) :
  all_chars is_number_char (NilEmpty.string_of_uint d) = true.
Proof. induction d; cbn [NilEmpty.string_of_uint all_chars]; auto. Qed.

Lemma number_to_string_chars (x : Z) :
  all_chars is_number_char (JSON.number_to_string x) = true.
Proof.
  unfold JSON.number_to_string.
  assert (Hu : forall d, all_chars is_number_char (NilZero.string_of_uint d) = true).
  { intros d. destruct d; try apply string_of_uint_chars. reflexivity. }
  destruct (Z.to_int x) as [d|d]; cbn [NilZero.string_of_int all_chars].
  - apply Hu.
  - rewrite Hu. reflexivity.
Qed.

Lemma number_to_string_inj (x y : Z) :
  JSON.number_to_string x = JSON.number_to_string y -> x = y.
Proof.
  unfold JSON.number_to_string. intros H.
  assert (Hnn : forall z, Z.to_int z <> Decimal.Pos Decimal.Nil
                          /\ Z.to_int z <> Decimal.Neg Decimal.Nil).
  { intros [|q|q]; cbn [Z.to_int]; split; try discriminate;
      intros [= Hq]; exact (Unsigned.to_uint_nonnil q Hq). }
  apply (f_equal NilZero.int_of_string) in H.
  rewrite !NilZero.isi in H by apply Hnn.
  injection H as H. exact (DecimalZ.to_int_inj _ _ H).
Qed.

Lemma number_cancel (x y : Z) (c c' : ascii) (a b : string) :
  is_number_char c = false -> is_number_char c' = false ->
  (JSON.number_to_string x ++ String c a
   = JSON.number_to_string y ++ String c' b)%string ->
  x = y /\ String c a = String c' b.
Proof.
  intros Hc Hc' H. apply (f_equal (span is_number_char)) in H.
  rewrite !span_app in H by (apply number_to_string_chars || assumption).
  injection H as Hn -> ->. split; [exact (number_to_string_inj _ _ Hn) | reflexivity].
Qed.

Lemma commas_cons (p : string) (ps : list string) :
  JSON.commas (p :: ps)
  = match ps with
    | [] => p
    | _ :: _ => (p ++ "," ++ JSON.commas ps)%string
    end.
Proof. destruct ps; reflexivity. Qed.

Lemma array_cancel (l l' : list string) (a b : string) :
  (JSON.commas (map JSON.quote l) ++ String "]" a
   = JSON.commas (map JSON.quote l') ++ String "]" b)%string ->
  l = l' /\ a = b.
Proof.
  revert l'. induction l as [|x l IH]; intros [|y l'] H.
  - cbn in H. injection H as ->. split; reflexivity.
  - exfalso. cbn [map] in H. rewrite commas_cons in H.
    destruct (map JSON.quote l'); unfold JSON.quote in H;
      cbn [String.append JSON.commas] in H; discriminate H.
  - exfalso. cbn [map] in H. rewrite commas_cons in H.
    destruct (map JSON.quote l); unfold JSON.quote in H;
      cbn [String.append JSON.commas] in H; discriminate H.
  - cbn [map] in H. rewrite !commas_cons in H.
    destruct l as [|x2 l], l' as [|y2 l']; cbn [map] in H.
    + apply quote_cancel in H as [-> H]. injection H as ->. split; reflexivity.
    + rewrite !string_app_assoc in H. apply quote_cancel in H as [_ H].
      cbn [String.append] in H. discriminate H.
    + rewrite !string_app_assoc in H. apply quote_cancel in H as [_ H].
      cbn [String.append] in H. discriminate H.
    + rewrite !string_app_assoc in H. apply quote_cancel in H as [-> H].
      cbn [String.append] in H. injection H as H.
      destruct (IH (y2 :: l') H) as [Hl ->]. rewrite Hl. split; reflexivity.
Qed.

Lemma array_strings (l : list string) :
  map JSON.stringify (map JSON.Str l) = map JSON.quote l.
Proof. rewrite map_map. reflexivity. Qed.

Lemma string_cons_cancel (c : ascii) (a b : string) :
  String c a = String c b -> a = b.
Proof. intros [= H]. exact H. Qed.

Ltac cancel H :=
  repeat first
    [ apply quote_cancel in H as [? H]
    | apply number_cancel in H as [? H]; [|reflexivity|reflexivity]
    | apply array_cancel in H as [? H]
    | apply string_cons_cancel in H ].

Lemma content_inj
    (i t : Z) (d : BlockData) (p : string) (n : Z)
    (i' t' : Z) (d' : BlockData) (p' : string) (n' : Z) :
  content i t d p n = content i' t' d' p' n' ->
  i = i' /\ t = t' /\ d = d' /\ p = p' /\ n = n'.
Proof.
  intros H.
  destruct d as [rid cat urg [ar ad ns] dh ev idn cid ts au st].
  destruct d' as [rid' cat' urg' [ar' ad' ns'] dh' ev' idn' cid' ts' au' st'].
  unfold content in H.
  cbn [JSON.stringify BlockData_value Location_value Identity_value Status_value
       List.map concat app JSON.commas fmap option_fmap option_map
       BlockData.reportId BlockData.category BlockData.urgency BlockData.location
       BlockData.descriptionHash BlockData.evidenceHashes BlockData.identity
       BlockData.citizenId BlockData.timestamp BlockData.authorityRouted
       BlockData.status area address nearestStation] in H.
  rewrite !array_strings in H.
  destruct cid as [c|], cid' as [c'|];
    cbn [JSON.stringify List.map concat app JSON.commas fmap option_fmap option_map] in H;
    rewrite !string_app_assoc in H; cbn [String.append] in H.
  all: cancel H.
  all: try match goal with Hkey : _ = _ |- _ => discriminate Hkey end.
  all: destruct idn, idn';
    try match goal with Hid : _ = _ |- _ => discriminate Hid end.
  all: destruct st, st';
    try match goal with Hst : _ = _ |- _ => discriminate Hst end.
  all: subst; repeat split; reflexivity.
Qed.

(** ** [JSON.stringify] on arbitrary values *)

















(** X13: on a valid chain, replacing any block after the first by a
    different block that keeps the stored hash (that is, overwriting any of
    index, timestamp, payload, previous hash and nonce without recomputing
    the hash) makes [isChainValid] return [false], unless SHA-256 yields
    the same digest on the two different texts; this for blocks whose
    numbers (index, timestamp, nonce and the timestamp of the payload) are
    safe integers, before and after the overwrite. *)
Theorem field_tampering_detected_or_collision
    (this : Blockchain) (i : nat) (b b' : Block) :
  isChainValid this = true ->
  (1 <= i)%nat ->
  chain this !! i = Some b ->
  safe_numbers b = true ->
  safe_numbers b' = true ->
  hash b' = hash b ->
  b' <> b ->
  isChainValid (mkBlockchain (<[i := b']> (chain this))) = false
  \/ (content (index b') (timestamp b') (data b') (previousHash b') (nonce b')
      <> content (index b) (timestamp b) (data b) (previousHash b) (nonce b)
      /\ SHA256.digest
           (content (index b') (timestamp b') (data b') (previousHash b') (nonce b'))
         = SHA256.digest
             (content (index b) (timestamp b) (data b) (previousHash b) (nonce b))).
Proof.
  intros Hvalid Hi Hb _ _ Hhash Hne.
  destruct this as [c]. cbn [chain] in *.
  destruct i as [|j]; [lia|].
  assert (Hlt : (S j < length c)%nat) by (apply lookup_lt_Some in Hb; exact Hb).
  destruct (lookup_lt_is_Some_2 c j) as [previous Hprev]; [lia|].
  destruct (proj1 (checks_true _ _)
              (proj1 (isChainValid_pairs c) Hvalid j previous b Hprev Hb))
    as [Hself _].
  destruct (String.eqb (hash b')
              (computeHash (index b') (timestamp b') (data b')
                           (previousHash b') (nonce b'))) eqn:Hdigest.
  - right. apply String.eqb_eq in Hdigest. split.
    + intros Hcontent. apply content_inj in Hcontent.
      destruct Hcontent as (Hi' & Ht' & Hd' & Hp' & Hn').
      apply Hne. destruct b, b'.
      cbn [index timestamp data previousHash nonce hash] in *. congruence.
    + change (computeHash (index b') (timestamp b') (data b') (previousHash b') (nonce b')
              = computeHash (index b) (timestamp b) (data b) (previousHash b) (nonce b)).
      congruence.
  - left. apply (isChainValid_false_at _ j previous b').
    + rewrite list_lookup_insert_ne by lia. exact Hprev.
    + apply list_lookup_insert_eq. exact Hlt.
    + unfold checks. rewrite Hdigest. reflexivity.
Qed.

(** X13 on [ledgerR1], writing [payloadAnonymousWithId] over the payload
    of block 1. *)
Lemma field_tampering_detected_or_collision_witness :
  isChainValid ledgerR1 = true
  /\ safe_numbers blockR1 = true
  /\ safe_numbers (setData payloadAnonymousWithId blockR1) = true
  /\ setData payloadAnonymousWithId blockR1 <> blockR1
  /\ (isChainValid
        (mkBlockchain (<[1%nat := setData payloadAnonymousWithId blockR1]> (chain ledgerR1)))
      = false
      \/ (content (index (setData payloadAnonymousWithId blockR1))
                  (timestamp (setData payloadAnonymousWithId blockR1))
                  (data (setData payloadAnonymousWithId blockR1))
                  (previousHash (setData payloadAnonymousWithId blockR1))
                  (nonce (setData payloadAnonymousWithId blockR1))
          <> content (index blockR1) (timestamp blockR1) (data blockR1)
                     (previousHash blockR1) (nonce blockR1)
          /\ SHA256.digest
               (content (index (setData payloadAnonymousWithId blockR1))
                        (timestamp (setData payloadAnonymousWithId blockR1))
                        (data (setData payloadAnonymousWithId blockR1))
                        (previousHash (setData payloadAnonymousWithId blockR1))
                        (nonce (setData payloadAnonymousWithId blockR1)))
             = SHA256.digest
                 (content (index blockR1) (timestamp blockR1) (data blockR1)
                          (previousHash blockR1) (nonce blockR1)))).
Proof.
  assert (Hne : setData payloadAnonymousWithId blockR1 <> blockR1).
  { intros H.
    apply (f_equal (fun blk => BlockData.citizenId (data blk))) in H.
    discriminate H. }
  split; [vm_compute; reflexivity|].
  split; [reflexivity|]. split; [reflexivity|].
  split; [exact Hne|].
  apply (field_tampering_detected_or_collision
           ledgerR1 1 blockR1 (setData payloadAnonymousWithId blockR1)).
  - vm_compute; reflexivity.
  - lia.
  - reflexivity.
  - reflexivity.
  - reflexivity.
  - reflexivity.
  - exact Hne.
Defined.
